(** * ITS dissector (packet-its-template.c): dispatch and resolution core

    A shallow embedding of the hand-written part of the Intelligent
    Transport Systems dissector: the cause / sub-cause association table
    and its lookup, the regional-extension resolver for open types, the
    registration of the message and regional-extension dissectors, and
    the message dispatch with its Decode-As overrides. *)

From stdpp Require Import gmap strings list fin_maps pretty.
From Stdlib Require Import ZArith Lia.

Local Open Scope Z_scope.

(** ** Machine integers *)

(** A [guint32] is kept as a [Z]; conversion to the type reduces modulo
    [2^32], as the C conversion to an unsigned type does. *)
Definition guint32 (z : Z) : Z := z mod 2 ^ 32.

(** ** Cause code / sub-cause code management *)

Module SubCause.

(** The enumerators of [CauseCodeType_enum] that the template names. The
    enumeration itself comes from the generated header; its numbering is
    a parameter of the development (see [Section lookup]). *)
Inductive CauseCodeType_enum : Set :=
  | reserved
  | trafficCondition
  | accident
  | roadworks
  | adverseWeatherCondition_Precipitation
  | adverseWeatherCondition_Visibility
  | adverseWeatherCondition_Adhesion
  | adverseWeatherCondition_ExtremeWeatherCondition
  | hazardousLocation_AnimalOnTheRoad
  | hazardousLocation_ObstacleOnTheRoad
  | hazardousLocation_SurfaceCondition
  | hazardousLocation_DangerousCurve
  | humanPresenceOnTheRoad
  | wrongWayDriving
  | rescueAndRecoveryWorkInProgress
  | slowVehicle
  | dangerousEndOfQueue
  | vehicleBreakdown
  | postCrash
  | humanProblem
  | stationaryVehicle
  | emergencyVehicleApproaching
  | collisionRisk
  | signalViolation
  | dangerousSituation.

#[global] Instance CauseCodeType_enum_eq_dec : EqDecision CauseCodeType_enum.
Proof. solve_decision. Defined.

(** The header fields a sub-cause code can be shown with: the static
    [hf_its_...SubCauseCode] variables of the template, and the generic
    [hf_its_subCauseCode] of the generated field list. The lookup hands
    out their addresses, so a field is identified by its variable. *)
Inductive hf_index : Set :=
  | hf_its_subCauseCode
  | hf_its_trafficConditionSubCauseCode
  | hf_its_accidentSubCauseCode
  | hf_its_roadworksSubCauseCode
  | hf_its_adverseWeatherCondition_PrecipitationSubCauseCode
  | hf_its_adverseWeatherCondition_VisibilitySubCauseCode
  | hf_its_adverseWeatherCondition_AdhesionSubCauseCode
  | hf_its_adverseWeatherCondition_ExtremeWeatherConditionSubCauseCode
  | hf_its_hazardousLocation_AnimalOnTheRoadSubCauseCode
  | hf_its_hazardousLocation_ObstacleOnTheRoadSubCauseCode
  | hf_its_hazardousLocation_SurfaceConditionSubCauseCode
  | hf_its_hazardousLocation_DangerousCurveSubCauseCode
  | hf_its_humanPresenceOnTheRoadSubCauseCode
  | hf_its_wrongWayDrivingSubCauseCode
  | hf_its_rescueAndRecoveryWorkInProgressSubCauseCode
  | hf_its_slowVehicleSubCauseCode
  | hf_its_dangerousEndOfQueueSubCauseCode
  | hf_its_vehicleBreakdownSubCauseCode
  | hf_its_postCrashSubCauseCode
  | hf_its_humanProblemSubCauseCode
  | hf_its_stationaryVehicleSubCauseCode
  | hf_its_emergencyVehicleApproachingSubCauseCode
  | hf_its_collisionRiskSubCauseCode
  | hf_its_signalViolationSubCauseCode
  | hf_its_dangerousSituationSubCauseCode.

#[global] Instance hf_index_eq_dec : EqDecision hf_index.
Proof. solve_decision. Defined.

(** One row of [cause_to_subcause]; [hf] is [None] for a [NULL] pointer. *)
Record cause_to_subcause_t : Set := mk_cause_to_subcause {
  cause : CauseCodeType_enum;
  hf : option hf_index;
}.

#[global] Instance cause_to_subcause_t_eq_dec : EqDecision cause_to_subcause_t.
Proof. solve_decision. Defined.

Definition cause_to_subcause : list cause_to_subcause_t := [
  mk_cause_to_subcause trafficCondition (Some hf_its_trafficConditionSubCauseCode);
  mk_cause_to_subcause accident (Some hf_its_accidentSubCauseCode);
  mk_cause_to_subcause roadworks (Some hf_its_roadworksSubCauseCode);
  mk_cause_to_subcause adverseWeatherCondition_Precipitation
    (Some hf_its_adverseWeatherCondition_PrecipitationSubCauseCode);
  mk_cause_to_subcause adverseWeatherCondition_Visibility
    (Some hf_its_adverseWeatherCondition_VisibilitySubCauseCode);
  mk_cause_to_subcause adverseWeatherCondition_Adhesion
    (Some hf_its_adverseWeatherCondition_AdhesionSubCauseCode);
  mk_cause_to_subcause adverseWeatherCondition_ExtremeWeatherCondition
    (Some hf_its_adverseWeatherCondition_ExtremeWeatherConditionSubCauseCode);
  mk_cause_to_subcause hazardousLocation_AnimalOnTheRoad
    (Some hf_its_hazardousLocation_AnimalOnTheRoadSubCauseCode);
  mk_cause_to_subcause hazardousLocation_ObstacleOnTheRoad
    (Some hf_its_hazardousLocation_ObstacleOnTheRoadSubCauseCode);
  mk_cause_to_subcause hazardousLocation_SurfaceCondition
    (Some hf_its_hazardousLocation_SurfaceConditionSubCauseCode);
  mk_cause_to_subcause hazardousLocation_DangerousCurve
    (Some hf_its_hazardousLocation_DangerousCurveSubCauseCode);
  mk_cause_to_subcause humanPresenceOnTheRoad
    (Some hf_its_humanPresenceOnTheRoadSubCauseCode);
  mk_cause_to_subcause wrongWayDriving (Some hf_its_wrongWayDrivingSubCauseCode);
  mk_cause_to_subcause rescueAndRecoveryWorkInProgress
    (Some hf_its_rescueAndRecoveryWorkInProgressSubCauseCode);
  mk_cause_to_subcause slowVehicle (Some hf_its_slowVehicleSubCauseCode);
  mk_cause_to_subcause dangerousEndOfQueue
    (Some hf_its_dangerousEndOfQueueSubCauseCode);
  mk_cause_to_subcause vehicleBreakdown (Some hf_its_vehicleBreakdownSubCauseCode);
  mk_cause_to_subcause postCrash (Some hf_its_postCrashSubCauseCode);
  mk_cause_to_subcause humanProblem (Some hf_its_humanProblemSubCauseCode);
  mk_cause_to_subcause stationaryVehicle
    (Some hf_its_stationaryVehicleSubCauseCode);
  mk_cause_to_subcause emergencyVehicleApproaching
    (Some hf_its_emergencyVehicleApproachingSubCauseCode);
  mk_cause_to_subcause collisionRisk (Some hf_its_collisionRiskSubCauseCode);
  mk_cause_to_subcause signalViolation (Some hf_its_signalViolationSubCauseCode);
  mk_cause_to_subcause dangerousSituation
    (Some hf_its_dangerousSituationSubCauseCode);
  mk_cause_to_subcause reserved None
].

(** A row of the field registration array [hf_its] of
    [proto_register_its]: the field variable, its name and filter name,
    type and base, the value-string table given to [VALS] (by name), the
    bit mask and the blurb. *)
Inductive ftenum : Set := FT_UINT8 | FT_UINT32 | FT_BYTES.
Inductive field_display : Set := BASE_DEC.

Record hf_register_info : Set := mk_hf_register_info {
  p_id : hf_index;
  hfinfo_name : string;
  hfinfo_abbrev : string;
  hfinfo_type : ftenum;
  hfinfo_display : field_display;
  hfinfo_strings : string;
  hfinfo_bitmask : Z;
  hfinfo_blurb : string;
}.

(** The rows of [hf_its] the template writes out (the generated rows,
    among them the one of [hf_its_subCauseCode], are included from a
    file that is not part of the sources). *)
Definition hf_its : list hf_register_info := [
  mk_hf_register_info hf_its_roadworksSubCauseCode
    "roadworksSubCauseCode" "its.subCauseCode" FT_UINT32 BASE_DEC
    "its_RoadworksSubCauseCode_vals" 0 "SubCauseCodeType";
  mk_hf_register_info hf_its_postCrashSubCauseCode
    "postCrashSubCauseCode" "its.subCauseCode" FT_UINT32 BASE_DEC
    "its_PostCrashSubCauseCode_vals" 0 "SubCauseCodeType";
  mk_hf_register_info hf_its_vehicleBreakdownSubCauseCode
    "vehicleBreakdownSubCauseCode" "its.subCauseCode" FT_UINT32 BASE_DEC
    "its_VehicleBreakdownSubCauseCode_vals" 0 "SubCauseCodeType";
  mk_hf_register_info hf_its_dangerousSituationSubCauseCode
    "dangerousSituationSubCauseCode" "its.subCauseCode" FT_UINT32 BASE_DEC
    "its_DangerousSituationSubCauseCode_vals" 0 "SubCauseCodeType";
  mk_hf_register_info hf_its_dangerousEndOfQueueSubCauseCode
    "dangerousEndOfQueueSubCauseCode" "its.subCauseCode" FT_UINT32 BASE_DEC
    "its_DangerousEndOfQueueSubCauseCode_vals" 0 "SubCauseCodeType";
  mk_hf_register_info hf_its_rescueAndRecoveryWorkInProgressSubCauseCode
    "rescueAndRecoveryWorkInProgressSubCauseCode" "its.subCauseCode" FT_UINT32 BASE_DEC
    "its_RescueAndRecoveryWorkInProgressSubCauseCode_vals" 0 "SubCauseCodeType";
  mk_hf_register_info hf_its_signalViolationSubCauseCode
    "signalViolationSubCauseCode" "its.subCauseCode" FT_UINT32 BASE_DEC
    "its_SignalViolationSubCauseCode_vals" 0 "SubCauseCodeType";
  mk_hf_register_info hf_its_collisionRiskSubCauseCode
    "collisionRiskSubCauseCode" "its.subCauseCode" FT_UINT32 BASE_DEC
    "its_CollisionRiskSubCauseCode_vals" 0 "SubCauseCodeType";
  mk_hf_register_info hf_its_hazardousLocation_AnimalOnTheRoadSubCauseCode
    "hazardousLocation_AnimalOnTheRoadSubCauseCode" "its.subCauseCode" FT_UINT32 BASE_DEC
    "its_HazardousLocation_AnimalOnTheRoadSubCauseCode_vals" 0 "SubCauseCodeType";
  mk_hf_register_info hf_its_hazardousLocation_ObstacleOnTheRoadSubCauseCode
    "hazardousLocation_ObstacleOnTheRoadSubCauseCode" "its.subCauseCode" FT_UINT32 BASE_DEC
    "its_HazardousLocation_ObstacleOnTheRoadSubCauseCode_vals" 0 "SubCauseCodeType";
  mk_hf_register_info hf_its_hazardousLocation_SurfaceConditionSubCauseCode
    "hazardousLocation_SurfaceConditionSubCauseCode" "its.subCauseCode" FT_UINT32 BASE_DEC
    "its_HazardousLocation_SurfaceConditionSubCauseCode_vals" 0 "SubCauseCodeType";
  mk_hf_register_info hf_its_hazardousLocation_DangerousCurveSubCauseCode
    "hazardousLocation_DangerousCurveSubCauseCode" "its.subCauseCode" FT_UINT32 BASE_DEC
    "its_HazardousLocation_DangerousCurveSubCauseCode_vals" 0 "SubCauseCodeType";
  mk_hf_register_info hf_its_emergencyVehicleApproachingSubCauseCode
    "emergencyVehicleApproachingSubCauseCode" "its.subCauseCode" FT_UINT32 BASE_DEC
    "its_EmergencyVehicleApproachingSubCauseCode_vals" 0 "SubCauseCodeType";
  mk_hf_register_info hf_its_humanProblemSubCauseCode
    "humanProblemSubCauseCode" "its.subCauseCode" FT_UINT32 BASE_DEC
    "its_HumanProblemSubCauseCode_vals" 0 "SubCauseCodeType";
  mk_hf_register_info hf_its_stationaryVehicleSubCauseCode
    "stationaryVehicleSubCauseCode" "its.subCauseCode" FT_UINT32 BASE_DEC
    "its_StationaryVehicleSubCauseCode_vals" 0 "SubCauseCodeType";
  mk_hf_register_info hf_its_slowVehicleSubCauseCode
    "slowVehicleSubCauseCode" "its.subCauseCode" FT_UINT32 BASE_DEC
    "its_SlowVehicleSubCauseCode_vals" 0 "SubCauseCodeType";
  mk_hf_register_info hf_its_adverseWeatherCondition_PrecipitationSubCauseCode
    "adverseWeatherCondition_PrecipitationSubCauseCode" "its.subCauseCode" FT_UINT32 BASE_DEC
    "its_AdverseWeatherCondition_PrecipitationSubCauseCode_vals" 0 "SubCauseCodeType";
  mk_hf_register_info hf_its_adverseWeatherCondition_VisibilitySubCauseCode
    "adverseWeatherCondition_VisibilitySubCauseCode" "its.subCauseCode" FT_UINT32 BASE_DEC
    "its_AdverseWeatherCondition_VisibilitySubCauseCode_vals" 0 "SubCauseCodeType";
  mk_hf_register_info hf_its_adverseWeatherCondition_AdhesionSubCauseCode
    "adverseWeatherCondition_AdhesionSubCauseCode" "its.subCauseCode" FT_UINT32 BASE_DEC
    "its_AdverseWeatherCondition_AdhesionSubCauseCode_vals" 0 "SubCauseCodeType";
  mk_hf_register_info hf_its_adverseWeatherCondition_ExtremeWeatherConditionSubCauseCode
    "adverseWeatherCondition_ExtremeWeatherConditionSubCauseCode" "its.subCauseCode" FT_UINT32 BASE_DEC
    "its_AdverseWeatherCondition_ExtremeWeatherConditionSubCauseCode_vals" 0 "SubCauseCodeType";
  mk_hf_register_info hf_its_wrongWayDrivingSubCauseCode
    "wrongWayDrivingSubCauseCode" "its.subCauseCode" FT_UINT32 BASE_DEC
    "its_WrongWayDrivingSubCauseCode_vals" 0 "SubCauseCodeType";
  mk_hf_register_info hf_its_humanPresenceOnTheRoadSubCauseCode
    "humanPresenceOnTheRoadSubCauseCode" "its.subCauseCode" FT_UINT32 BASE_DEC
    "its_HumanPresenceOnTheRoadSubCauseCode_vals" 0 "SubCauseCodeType";
  mk_hf_register_info hf_its_accidentSubCauseCode
    "accidentSubCauseCode" "its.subCauseCode" FT_UINT32 BASE_DEC
    "its_AccidentSubCauseCode_vals" 0 "SubCauseCodeType";
  mk_hf_register_info hf_its_trafficConditionSubCauseCode
    "trafficConditionSubCauseCode" "its.subCauseCode" FT_UINT32 BASE_DEC
    "its_TrafficConditionSubCauseCode_vals" 0 "SubCauseCodeType"
].

(** The value-string table a field of [hf_its] is shown with. *)
Definition vals_of (h : hf_index) : option string :=
  (hfinfo_strings ∘ snd) <$> list_find (λ r, p_id r = h) hf_its.

(** The rows that carry a field: the known causes. *)
Definition known_rows : list cause_to_subcause_t :=
  filter (λ e, is_Some (hf e)) cause_to_subcause.

Definition known_causes : list CauseCodeType_enum := cause <$> known_rows.

(** The field the table associates with an enumerator: the one of its
    first row. *)
Definition field_of_cause (k : CauseCodeType_enum) : option hf_index :=
  list_find (λ e, cause e = k) cause_to_subcause ≫= (hf ∘ snd).

Section lookup.

(** The integer each enumerator stands for (generated header). *)
Variable enum_value : CauseCodeType_enum → Z.

(** The loop condition of [find_subcause_from_cause] at a row:
    [cause_to_subcause[idx].hf && (cause_to_subcause[idx].cause != cause)]. *)
Definition loop_cond (c : Z) (e : cause_to_subcause_t) : bool :=
  bool_decide (is_Some (hf e)) && negb (enum_value (cause e) =? c).

(** The [while] loop, on an array [tbl]: the index at which it stops.
    [None] stands for a read behind the last row (or for fuel that ran
    out); [find_subcause_from_cause_total] shows that neither happens. *)
Fixpoint find_subcause_loop (tbl : list cause_to_subcause_t) (fuel : nat)
    (c : Z) (idx : nat) : option nat :=
  match fuel with
  | O => None
  | S fuel' =>
      match tbl !! idx with
      | None => None
      | Some e =>
          if loop_cond c e then find_subcause_loop tbl fuel' c (S idx)
          else Some idx
      end
  end.

Definition find_subcause_from_cause (c : Z) : option hf_index :=
  idx ← find_subcause_loop cause_to_subcause (length cause_to_subcause) c 0%nat;
  e ← cause_to_subcause !! idx;
  Some (match hf e with Some h => h | None => hf_its_subCauseCode end).

(** Modelled from the spec: the [activeCause] state of the
    DispatchContext and the decoder of the SubCauseCode field that reads
    it (the field decoders are generated code, not part of the sources).
    The state is unset at the start of a message and set by decoding a
    CauseCode field; the SubCauseCode field resolves its vocabulary from
    the recorded cause, and to the fallback vocabulary when unset. *)
Inductive activeCause : Set :=
  | cause_unset
  | cause_set (c : Z).

Definition vocabularyFor_active (a : activeCause) : option hf_index :=
  match a with
  | cause_unset => Some hf_its_subCauseCode
  | cause_set c => find_subcause_from_cause c
  end.

End lookup.

End SubCause.

(** ** The dissection framework, as far as the template uses it *)

Module Epan.

(** A buffer: the captured bytes and the length the packet reported. *)
Record tvbuff_t : Set := mk_tvbuff {
  tvb_bytes : list Byte.byte;
  tvb_reported : Z;
}.

(** Modelled from the spec: [tvb_captured_length] of the framework
    (epan/tvbuff.c is not part of the sources), the length of the byte
    span at hand. A captured packet is far shorter than [2^31] bytes, so
    the length is kept as it is where a dissector returns it as an
    [int]. *)
Definition tvb_captured_length (tvb : tvbuff_t) : Z :=
  Z.of_nat (length (tvb_bytes tvb)).

(** Protocols registered by [proto_register_its]. *)
Inductive protocol : Set :=
  | proto_its
  | proto_its_denm
  | proto_its_cam
  | proto_its_evcsn
  | proto_its_evrsr
  | proto_its_ivim
  | proto_its_tistpg
  | proto_its_ssem
  | proto_its_srem
  | proto_its_mapem
  | proto_its_spatem
  | proto_addgrpc.

(** The dissector functions handles are created for. All but
    [dissect_its_PDU] are generated from the message grammars. *)
Module Fn.
Inductive dissector_t : Set :=
  | dissect_its_PDU
  | dissect_denm_DecentralizedEnvironmentalNotificationMessage_PDU
  | dissect_cam_CoopAwareness_PDU
  | dissect_dsrc_SPAT_PDU
  | dissect_dsrc_MapData_PDU
  | dissect_ivi_IviStructure_PDU
  | dissect_evrsr_EV_RSR_MessageBody_PDU
  | dissect_dsrc_SignalRequestMessage_PDU
  | dissect_dsrc_SignalStatusMessage_PDU
  | dissect_evcsn_EVChargingSpotNotificationPOIMessage_PDU
  | dissect_tistpg_TisTpgTransaction_PDU
  | dissect_AddGrpC_ConnectionManeuverAssist_addGrpC_PDU
  | dissect_AddGrpC_ConnectionTrajectory_addGrpC_PDU
  | dissect_AddGrpC_Control_addGrpC_PDU
  | dissect_AddGrpC_IntersectionState_addGrpC_PDU
  | dissect_AddGrpC_MapData_addGrpC_PDU
  | dissect_AddGrpC_Position3D_addGrpC_PDU
  | dissect_AddGrpC_RestrictionUserType_addGrpC_PDU
  | dissect_AddGrpC_SignalStatusPackage_addGrpC_PDU.
End Fn.

Record dissector_handle_t : Set := create_dissector_handle {
  dissector : Fn.dissector_t;
  proto : protocol;
}.

#[global] Instance protocol_eq_dec : EqDecision protocol.
Proof. solve_decision. Defined.
#[global] Instance dissector_t_eq_dec : EqDecision Fn.dissector_t.
Proof. solve_decision. Defined.
#[global] Instance dissector_handle_t_eq_dec : EqDecision dissector_handle_t.
Proof. solve_decision. Defined.

Inductive column : Set := COL_PROTOCOL | COL_INFO.

(** Subtree kinds of the template. *)
Inductive ett_index : Set := ett_its.

(** What a dissection does to the columns and the protocol tree, in the
    order it is done. A sub-dissector's own work is one event. *)
Inductive event : Set :=
  | ev_col_set_str (c : column) (s : string)
  | ev_col_clear (c : column)
  | ev_proto_tree_add_item (p : protocol) (tvb : tvbuff_t) (start length : Z)
  | ev_proto_item_add_subtree (idx : ett_index)
  | ev_call_dissector (h : dissector_handle_t) (tvb : tvbuff_t)
  | ev_call_data_dissector (tvb : tvbuff_t).

(** A dissection step: its value and the events it appended. *)
Record Dissect (A : Type) : Type := mk_dissect {
  value : A;
  log : list event;
}.
Arguments mk_dissect {A} _ _.
Arguments value {A} _.
Arguments log {A} _.

#[global] Instance dissect_ret : MRet Dissect := λ A a, mk_dissect a [].
#[global] Instance dissect_bind : MBind Dissect := λ A B f m,
  let r := f (value m) in mk_dissect (value r) (log m ++ log r).

Definition emit (e : event) : Dissect unit := mk_dissect tt [e].

(** The sub-dissectors a dissection handed a buffer to, in order. *)
Definition invoked (l : list event) : list dissector_handle_t :=
  omap (λ e, match e with ev_call_dissector h _ => Some h | _ => None end) l.

(** The buffers a dissection showed as raw data. *)
Definition shown_as_data (l : list event) : list tvbuff_t :=
  omap (λ e, match e with ev_call_data_dissector tvb => Some tvb | _ => None end) l.

(** All dissector tables, by name; a table maps a [guint32] pattern to
    the handle bound to it. *)
Abbreviation dissector_tables := (gmap string (gmap Z dissector_handle_t)).

(** Modelled from the spec: [register_dissector_table] of the framework
    (epan/packet.c is not part of the sources): a registry is created
    empty under its name, and populated afterwards. *)
Definition register_dissector_table (name : string) (tables : dissector_tables)
    : dissector_tables :=
  <[name := ∅]> tables.

(** Modelled from the spec: [dissector_add_uint] of the framework
    (epan/packet.c is not part of the sources), the [register] of the
    Message Registry and of the Regional Extension Resolver. It binds
    [pattern] in the table called [name]; it fails when the pattern is
    bound already (a duplicate registration is fatal at startup), or
    when there is no such table. The pattern parameter is a [guint32]. *)
Definition dissector_add_uint (name : string) (pattern : Z)
    (handle : dissector_handle_t) (tables : dissector_tables)
    : option dissector_tables :=
  sub_dissectors ← tables !! name;
  match sub_dissectors !! guint32 pattern with
  | Some _ => None
  | None => Some (<[name := <[guint32 pattern := handle]> sub_dissectors]> tables)
  end.

(** A row of registrations, made in order. *)
Fixpoint dissector_add_all (calls : list (string * Z * dissector_handle_t))
    (tables : dissector_tables) : option dissector_tables :=
  match calls with
  | [] => Some tables
  | (name, pattern, handle) :: calls' =>
      tables' ← dissector_add_uint name pattern handle tables;
      dissector_add_all calls' tables'
  end.

(** The patterns of a row of registrations, with their tables. *)
Definition patterns_of (calls : list (string * Z * dissector_handle_t))
    : list (string * Z) :=
  (λ c, (c.1.1, guint32 c.1.2)) <$> calls.

(** The patterns a row of registrations binds in the table [name]. *)
Definition registered_patterns (name : string)
    (calls : list (string * Z * dissector_handle_t)) : list Z :=
  (λ c, guint32 c.1.2) <$> filter (λ c, c.1.1 = name) calls.

(** Modelled from the spec: [dissector_get_uint_handle] of the framework
    (epan/packet.c is not part of the sources), the query of a registry:
    the handle bound to [uint_val] in the table called [name], if the
    table exists and binds one. *)
Definition dissector_get_uint_handle (tables : dissector_tables)
    (name : string) (uint_val : Z) : option dissector_handle_t :=
  sub_dissectors ← tables !! name;
  sub_dissectors !! uint_val.

Section calls.

(** What a dissector returns on a buffer: the number of bytes it took,
    [0] when it rejects the buffer (the dissectors are generated code). *)
Variable call_dissector_work : dissector_handle_t → tvbuff_t → Z.

(** Modelled from the spec: [dissector_try_uint_new] of the framework
    (epan/packet.c is not part of the sources): look the value up in the
    table; if a handle is found, delegate to it and give back what it
    returns; if none is found (or there is no such table), give back
    [0] and do nothing. The template passes [FALSE] for the protocol
    name and [NULL] for the data of the handler; neither is kept. *)
Definition dissector_try_uint_new (tables : dissector_tables) (name : string)
    (uint_val : Z) (tvb : tvbuff_t) : Dissect Z :=
  match dissector_get_uint_handle tables name uint_val with
  | Some h =>
      emit (ev_call_dissector h tvb);;
      mret (call_dissector_work h tvb)
  | None => mret 0
  end.

(** Modelled from the spec: [call_data_dissector] of the framework
    (epan/packet.c is not part of the sources): the bytes are shown as
    an opaque blob of raw data, and all of them count as consumed. *)
Definition call_data_dissector (tvb : tvbuff_t) : Dissect Z :=
  emit (ev_call_data_dissector tvb);;
  mret (tvb_captured_length tvb).

End calls.

End Epan.

(** ** The ITS dissector proper *)

Module Its.
Import Epan.

(** Applications well known ports. *)
Definition ITS_WKP_CA : Z := 2001.
Definition ITS_WKP_DEN : Z := 2002.
Definition ITS_WKP_RLT : Z := 2003.
Definition ITS_WKP_TLM : Z := 2004.
Definition ITS_WKP_SA : Z := 2005.
Definition ITS_WKP_IVI : Z := 2006.
Definition ITS_WKP_TLC_SREM : Z := 2007.
Definition ITS_WKP_TLC_SSEM : Z := 2008.
Definition ITS_WKP_CPS : Z := 2009.
Definition ITS_WKP_EVCSN : Z := 2010.
Definition ITS_WKP_TPG : Z := 2011.
Definition ITS_WKP_CHARGING : Z := 2012.
Definition ITS_WKP_GPC : Z := 2013.
Definition ITS_WKP_CTL : Z := 2014.
Definition ITS_WKP_CRL : Z := 2015.
Definition ITS_WKP_CERTIF_REQ : Z := 2016.

(** ETSI TS 102 965 application identifiers. *)
Definition AID_CA : Z := 36.
Definition AID_DEN : Z := 37.
Definition AID_TLM : Z := 137.
Definition AID_RLT : Z := 138.
Definition AID_IVI : Z := 139.
Definition AID_TLC : Z := 140.
Definition AID_GN_MGMT : Z := 141.

(** The message identifiers the handoff registers; their values come
    from the generated header and are a parameter. *)
Inductive its_msgid : Set :=
  | ITS_DENM
  | ITS_CAM
  | ITS_SPATEM
  | ITS_MAPEM
  | ITS_IVIM
  | ITS_EV_RSR
  | ITS_SREM
  | ITS_SSEM
  | ITS_EVCSN
  | ITS_TISTPGTRANSACTION.

(** The enumerators of [regext_type_enum] the handoff registers; their
    values come from the header of the dissector and are a parameter. *)
Inductive regext_type_enum : Set :=
  | Reg_ConnectionManeuverAssist
  | Reg_GenericLane
  | Reg_NodeAttributeSetXY
  | Reg_IntersectionState
  | Reg_MapData
  | Reg_Position3D
  | Reg_RestrictionUserType
  | Reg_SignalStatusPackage.

#[global] Instance its_msgid_eq_dec : EqDecision its_msgid.
Proof. solve_decision. Defined.
#[global] Instance regext_type_enum_eq_dec : EqDecision regext_type_enum.
Proof. solve_decision. Defined.

Definition all_its_msgid : list its_msgid :=
  [ITS_DENM; ITS_CAM; ITS_SPATEM; ITS_MAPEM; ITS_IVIM; ITS_EV_RSR; ITS_SREM;
   ITS_SSEM; ITS_EVCSN; ITS_TISTPGTRANSACTION].

Definition all_regext_type : list regext_type_enum :=
  [Reg_ConnectionManeuverAssist; Reg_GenericLane; Reg_NodeAttributeSetXY;
   Reg_IntersectionState; Reg_MapData; Reg_Position3D; Reg_RestrictionUserType;
   Reg_SignalStatusPackage].

(** Per-packet data of the dissection: the kind of regional extension
    being decoded, the region of the enclosing message, and the cause
    code last decoded. [type] holds the integer of a [regext_type_enum]. *)
Record its_private_data_t : Set := mk_its_private_data {
  type : Z;
  region_id : Z;
  cause_code : Z;
}.

(** The names of the three tables [proto_register_its] creates; the
    static table variables of the template stand for these. *)
Definition its_version_subdissector_table : string := "its.version".
Definition its_msgid_subdissector_table : string := "its.msg_id".
Definition regionid_subdissector_table : string := "dsrc.regionid".

(** The key of the regional-extension table:
    [((guint32) re->region_id<<16) + (guint32) re->type]. *)
Definition regextval_key (re : its_private_data_t) : Z :=
  guint32 (guint32 (Z.shiftl (guint32 (region_id re)) 16) + guint32 (type re)).

(** The Decode-As registration record, as far as it is data. *)
Record decode_as_t : Set := mk_decode_as {
  da_name : string;
  da_title : string;
  da_table_name : string;
  da_num_items : Z;
  da_default_index_value : Z;
}.

Definition its_da : decode_as_t :=
  mk_decode_as "its" "ITS msg id" "its.msg_id" 1 0.

(** [proto_register_its], on the dissector tables: the three tables it
    creates (the registration of the protocol names, of the fields
    [hf_its] and of [its_da] does not touch the tables). *)
Definition proto_register_its (tables : dissector_tables) : dissector_tables :=
  register_dissector_table regionid_subdissector_table
    (register_dissector_table its_msgid_subdissector_table
      (register_dissector_table its_version_subdissector_table tables)).

Definition BTP_SUBDISS_SZ : nat := 2.
Definition BTP_PORTS_SZ : nat := 10.

Section its.

(** Values from the headers that are not part of the sources. *)
Variable msgid_value : its_msgid → Z.
Variable addGrpC : Z.
Variable regext_value : regext_type_enum → Z.

(** What a dissector returns on a buffer. *)
Variable call_dissector_work : dissector_handle_t → tvbuff_t → Z.

(** Specific dissector for the content of an open type for regional
    extensions. [re] is the private data [data] points to (the pointer
    is dereferenced as it comes: the callers pass the private data of
    the message being decoded). *)
Definition dissect_regextval_pdu (tables : dissector_tables) (tvb : tvbuff_t)
    (re : its_private_data_t) : Dissect Z :=
  r ← dissector_try_uint_new call_dissector_work tables
         regionid_subdissector_table (regextval_key re) tvb;
  (if r =? 0 then call_data_dissector tvb;; mret tt else mret tt);;
  mret (tvb_captured_length tvb).

Definition subdissector : list string := ["btpa.port"; "btpb.port"].

Definition ports : list Z :=
  [ITS_WKP_DEN; ITS_WKP_CA; ITS_WKP_EVCSN; ITS_WKP_CHARGING; ITS_WKP_IVI;
   ITS_WKP_TPG; ITS_WKP_TLC_SSEM; ITS_WKP_TLC_SREM; ITS_WKP_RLT; ITS_WKP_TLM].

(** The registrations of [proto_reg_handoff_its], in the order they are
    made: table, pattern, handle. The two nested loops over
    [subdissector] and [ports] come first. *)
Definition proto_reg_handoff_its_calls
    : list (string * Z * dissector_handle_t) :=
  let its_handle_ := create_dissector_handle Fn.dissect_its_PDU proto_its in
  (sd ← take BTP_SUBDISS_SZ subdissector;
   p ← take BTP_PORTS_SZ ports;
   [(sd, p, its_handle_)]) ++
  [ ("geonw.sec.v1.msg_type", msgid_value ITS_DENM, its_handle_);
    ("geonw.sec.v1.msg_type", msgid_value ITS_CAM, its_handle_);
    ("geonw.sec.v2.app_id", AID_DEN, its_handle_);
    ("geonw.sec.v2.app_id", AID_CA, its_handle_);
    ("geonw.sec.v2.app_id", AID_TLM, its_handle_);
    ("geonw.sec.v2.app_id", AID_RLT, its_handle_);
    ("geonw.sec.v2.app_id", AID_IVI, its_handle_);
    ("geonw.sec.v2.app_id", AID_TLC, its_handle_);

    ("its.msg_id", msgid_value ITS_DENM,
      create_dissector_handle
        Fn.dissect_denm_DecentralizedEnvironmentalNotificationMessage_PDU
        proto_its_denm);
    ("its.msg_id", msgid_value ITS_CAM,
      create_dissector_handle Fn.dissect_cam_CoopAwareness_PDU proto_its_cam);
    ("its.msg_id", msgid_value ITS_SPATEM,
      create_dissector_handle Fn.dissect_dsrc_SPAT_PDU proto_its_spatem);
    ("its.msg_id", msgid_value ITS_MAPEM,
      create_dissector_handle Fn.dissect_dsrc_MapData_PDU proto_its_mapem);
    ("its.msg_id", msgid_value ITS_IVIM,
      create_dissector_handle Fn.dissect_ivi_IviStructure_PDU proto_its_ivim);
    ("its.msg_id", msgid_value ITS_EV_RSR,
      create_dissector_handle Fn.dissect_evrsr_EV_RSR_MessageBody_PDU
        proto_its_evrsr);
    ("its.msg_id", msgid_value ITS_SREM,
      create_dissector_handle Fn.dissect_dsrc_SignalRequestMessage_PDU
        proto_its_srem);
    ("its.msg_id", msgid_value ITS_SSEM,
      create_dissector_handle Fn.dissect_dsrc_SignalStatusMessage_PDU
        proto_its_ssem);
    ("its.msg_id", msgid_value ITS_EVCSN,
      create_dissector_handle
        Fn.dissect_evcsn_EVChargingSpotNotificationPOIMessage_PDU
        proto_its_evcsn);
    ("its.msg_id", msgid_value ITS_TISTPGTRANSACTION,
      create_dissector_handle Fn.dissect_tistpg_TisTpgTransaction_PDU
        proto_its_tistpg);

    ("dsrc.regionid",
      Z.shiftl addGrpC 16 + regext_value Reg_ConnectionManeuverAssist,
      create_dissector_handle
        Fn.dissect_AddGrpC_ConnectionManeuverAssist_addGrpC_PDU proto_addgrpc);
    ("dsrc.regionid", Z.shiftl addGrpC 16 + regext_value Reg_GenericLane,
      create_dissector_handle
        Fn.dissect_AddGrpC_ConnectionTrajectory_addGrpC_PDU proto_addgrpc);
    ("dsrc.regionid", Z.shiftl addGrpC 16 + regext_value Reg_NodeAttributeSetXY,
      create_dissector_handle Fn.dissect_AddGrpC_Control_addGrpC_PDU
        proto_addgrpc);
    ("dsrc.regionid", Z.shiftl addGrpC 16 + regext_value Reg_IntersectionState,
      create_dissector_handle
        Fn.dissect_AddGrpC_IntersectionState_addGrpC_PDU proto_addgrpc);
    ("dsrc.regionid", Z.shiftl addGrpC 16 + regext_value Reg_MapData,
      create_dissector_handle Fn.dissect_AddGrpC_MapData_addGrpC_PDU
        proto_addgrpc);
    ("dsrc.regionid", Z.shiftl addGrpC 16 + regext_value Reg_Position3D,
      create_dissector_handle Fn.dissect_AddGrpC_Position3D_addGrpC_PDU
        proto_addgrpc);
    ("dsrc.regionid", Z.shiftl addGrpC 16 + regext_value Reg_RestrictionUserType,
      create_dissector_handle
        Fn.dissect_AddGrpC_RestrictionUserType_addGrpC_PDU proto_addgrpc);
    ("dsrc.regionid", Z.shiftl addGrpC 16 + regext_value Reg_SignalStatusPackage,
      create_dissector_handle
        Fn.dissect_AddGrpC_SignalStatusPackage_addGrpC_PDU proto_addgrpc) ].

Definition proto_reg_handoff_its (tables : dissector_tables)
    : option dissector_tables :=
  dissector_add_all proto_reg_handoff_its_calls tables.

(** The tables the handoff registers in. *)
Definition proto_reg_handoff_its_tables : list string :=
  ["btpa.port"; "btpb.port"; "geonw.sec.v1.msg_type"; "geonw.sec.v2.app_id";
   "its.msg_id"; "dsrc.regionid"].

(** What the handoff needs of the host: each table of another dissector
    it registers in exists, with the pattern still free. *)
Definition host_accepts_its (host : dissector_tables) : Prop :=
  ∀ name pattern handle,
    (name, pattern, handle) ∈ proto_reg_handoff_its_calls →
    name ∉ [its_version_subdissector_table; its_msgid_subdissector_table;
            regionid_subdissector_table] →
    is_Some (host !! name)
    ∧ dissector_get_uint_handle host name (guint32 pattern) = None.

End its.

(** The handles [proto_reg_handoff_its] creates: the one of the entry
    point, bound to the ports and application identifiers; the one of
    each message identifier; the one of each regional extension. *)
Definition its_handle : dissector_handle_t :=
  create_dissector_handle Fn.dissect_its_PDU proto_its.

Definition msgid_handle (m : its_msgid) : dissector_handle_t :=
  match m with
  | ITS_DENM =>
      create_dissector_handle
        Fn.dissect_denm_DecentralizedEnvironmentalNotificationMessage_PDU
        proto_its_denm
  | ITS_CAM =>
      create_dissector_handle Fn.dissect_cam_CoopAwareness_PDU proto_its_cam
  | ITS_SPATEM =>
      create_dissector_handle Fn.dissect_dsrc_SPAT_PDU proto_its_spatem
  | ITS_MAPEM =>
      create_dissector_handle Fn.dissect_dsrc_MapData_PDU proto_its_mapem
  | ITS_IVIM =>
      create_dissector_handle Fn.dissect_ivi_IviStructure_PDU proto_its_ivim
  | ITS_EV_RSR =>
      create_dissector_handle Fn.dissect_evrsr_EV_RSR_MessageBody_PDU
        proto_its_evrsr
  | ITS_SREM =>
      create_dissector_handle Fn.dissect_dsrc_SignalRequestMessage_PDU
        proto_its_srem
  | ITS_SSEM =>
      create_dissector_handle Fn.dissect_dsrc_SignalStatusMessage_PDU
        proto_its_ssem
  | ITS_EVCSN =>
      create_dissector_handle
        Fn.dissect_evcsn_EVChargingSpotNotificationPOIMessage_PDU
        proto_its_evcsn
  | ITS_TISTPGTRANSACTION =>
      create_dissector_handle Fn.dissect_tistpg_TisTpgTransaction_PDU
        proto_its_tistpg
  end.

Definition regext_handle (t : regext_type_enum) : dissector_handle_t :=
  match t with
  | Reg_ConnectionManeuverAssist =>
      create_dissector_handle
        Fn.dissect_AddGrpC_ConnectionManeuverAssist_addGrpC_PDU proto_addgrpc
  | Reg_GenericLane =>
      create_dissector_handle
        Fn.dissect_AddGrpC_ConnectionTrajectory_addGrpC_PDU proto_addgrpc
  | Reg_NodeAttributeSetXY =>
      create_dissector_handle Fn.dissect_AddGrpC_Control_addGrpC_PDU
        proto_addgrpc
  | Reg_IntersectionState =>
      create_dissector_handle
        Fn.dissect_AddGrpC_IntersectionState_addGrpC_PDU proto_addgrpc
  | Reg_MapData =>
      create_dissector_handle Fn.dissect_AddGrpC_MapData_addGrpC_PDU
        proto_addgrpc
  | Reg_Position3D =>
      create_dissector_handle Fn.dissect_AddGrpC_Position3D_addGrpC_PDU
        proto_addgrpc
  | Reg_RestrictionUserType =>
      create_dissector_handle
        Fn.dissect_AddGrpC_RestrictionUserType_addGrpC_PDU proto_addgrpc
  | Reg_SignalStatusPackage =>
      create_dissector_handle
        Fn.dissect_AddGrpC_SignalStatusPackage_addGrpC_PDU proto_addgrpc
  end.

(** The well known ports and application identifiers the template
    defines but [proto_reg_handoff_its] does not register (the services
    listed as not supported, and the allocated port). *)
Definition unregistered_ports : list Z :=
  [ITS_WKP_SA; ITS_WKP_CPS; ITS_WKP_GPC; ITS_WKP_CTL; ITS_WKP_CRL;
   ITS_WKP_CERTIF_REQ].

Definition registered_aids : list Z :=
  [AID_DEN; AID_CA; AID_TLM; AID_RLT; AID_IVI; AID_TLC].

End Its.

(** ** Message dispatch and Decode-As overrides *)

Module Dispatch.
Import Epan Its.

(** The common header of every ITS message. *)
Record ItsPduHeader : Set := mk_ItsPduHeader {
  protocolVersion : Z;
  messageID : Z;
  stationID : Z;
}.

(** Modelled from the spec: the Decode-As Override Store. The template
    only registers [its_da] with the default populate, reset and change
    callbacks (epan/decode_as.c is not part of the sources); the store
    they maintain is an in-memory map from message kind to parser, last
    write wins, empty by default. *)
Definition setOverride (kind : Z) (parser : dissector_handle_t)
    (overrides : gmap Z dissector_handle_t) : gmap Z dissector_handle_t :=
  <[kind := parser]> overrides.

Definition clearOverride (kind : Z) (overrides : gmap Z dissector_handle_t)
    : gmap Z dissector_handle_t :=
  delete kind overrides.

Definition get (kind : Z) (overrides : gmap Z dissector_handle_t)
    : option dissector_handle_t :=
  overrides !! kind.

(** Modelled from the spec: the parser in effect for a message kind,
    the Override Store first, the Message Registry (the table named by
    [its_da]) second. *)
Definition effective_parser (tables : dissector_tables)
    (overrides : gmap Z dissector_handle_t) (kind : Z)
    : option dissector_handle_t :=
  match get kind overrides with
  | Some parser => Some parser
  | None => dissector_get_uint_handle tables (da_table_name its_da) kind
  end.

(** What the entry point does before it dispatches. *)
Definition its_PDU_prologue (tvb : tvbuff_t) : list event :=
  [ev_col_set_str COL_PROTOCOL "ITS"; ev_col_clear COL_INFO;
   ev_proto_tree_add_item proto_its tvb 0 (-1);
   ev_proto_item_add_subtree ett_its].

Section dispatch.

(** The external decoder on the common header: the header and the bytes
    that remain, or nothing for a malformed header. *)
Variable dissect_header : tvbuff_t → option (ItsPduHeader * tvbuff_t).

(** What a dissector returns on a buffer. *)
Variable call_dissector_work : dissector_handle_t → tvbuff_t → Z.

(** Modelled from the spec: [dissect_its_ItsPduHeader_PDU], the
    [dispatch] of the PDU Dispatcher (the function is generated, and not
    part of the sources). Decode the common header; look the message
    kind up, overrides first; invoke the parser found on the remaining
    bytes and return its result; show the remaining bytes as raw data
    when none is found. [None] is a decode fault of the header. The
    four steps of the contract do not consult the version table, and
    the DispatchContext handed to the parser does not show in the
    events. *)
Definition dissect_its_ItsPduHeader_PDU (tables : dissector_tables)
    (overrides : gmap Z dissector_handle_t) (tvb : tvbuff_t)
    : Dissect (option Z) :=
  match dissect_header tvb with
  | None => mret None
  | Some (hdr, payload) =>
      match effective_parser tables overrides (messageID hdr) with
      | Some parser =>
          emit (ev_call_dissector parser payload);;
          mret (Some (call_dissector_work parser payload))
      | None =>
          n ← call_data_dissector payload;
          mret (Some n)
      end
  end.

(** The entry point of the dissector. *)
Definition dissect_its_PDU (tables : dissector_tables)
    (overrides : gmap Z dissector_handle_t) (tvb : tvbuff_t)
    : Dissect (option Z) :=
  emit (ev_col_set_str COL_PROTOCOL "ITS");;
  emit (ev_col_clear COL_INFO);;
  emit (ev_proto_tree_add_item proto_its tvb 0 (-1));;
  emit (ev_proto_item_add_subtree ett_its);;
  dissect_its_ItsPduHeader_PDU tables overrides tvb.

End dispatch.

End Dispatch.

(** ** A concrete configuration

    One assignment of the values the sources leave to the headers, a
    host with the tables of the transport dissectors, and a header
    decoder; the general statements below are instantiated at it. *)

Module Sample.
Import SubCause Epan Its Dispatch.

Definition cause_value (c : CauseCodeType_enum) : Z :=
  match c with
  | reserved => 0
  | trafficCondition => 1
  | accident => 2
  | roadworks => 3
  | adverseWeatherCondition_Adhesion => 6
  | hazardousLocation_SurfaceCondition => 9
  | hazardousLocation_ObstacleOnTheRoad => 10
  | hazardousLocation_AnimalOnTheRoad => 11
  | humanPresenceOnTheRoad => 12
  | wrongWayDriving => 14
  | rescueAndRecoveryWorkInProgress => 15
  | adverseWeatherCondition_ExtremeWeatherCondition => 17
  | adverseWeatherCondition_Visibility => 18
  | adverseWeatherCondition_Precipitation => 19
  | slowVehicle => 26
  | dangerousEndOfQueue => 27
  | vehicleBreakdown => 91
  | postCrash => 92
  | humanProblem => 93
  | stationaryVehicle => 94
  | emergencyVehicleApproaching => 95
  | hazardousLocation_DangerousCurve => 96
  | collisionRisk => 97
  | signalViolation => 98
  | dangerousSituation => 99
  end.

Definition msgid_value (m : its_msgid) : Z :=
  match m with
  | ITS_DENM => 1
  | ITS_CAM => 2
  | ITS_SPATEM => 4
  | ITS_MAPEM => 5
  | ITS_IVIM => 6
  | ITS_EV_RSR => 7
  | ITS_TISTPGTRANSACTION => 8
  | ITS_SREM => 9
  | ITS_SSEM => 10
  | ITS_EVCSN => 11
  end.

(** The region of the European extensions, numbered as the spec has it. *)
Definition addGrpC : Z := 0.

Definition regext_value (t : regext_type_enum) : Z :=
  match t with
  | Reg_ConnectionManeuverAssist => 2
  | Reg_GenericLane => 3
  | Reg_IntersectionState => 5
  | Reg_MapData => 8
  | Reg_NodeAttributeSetXY => 12
  | Reg_Position3D => 15
  | Reg_RestrictionUserType => 18
  | Reg_SignalStatusPackage => 26
  end.

(** The tables of the BTP and GeoNetworking dissectors, still empty. *)
Definition host_tables : dissector_tables :=
  {[ "btpa.port" := ∅; "btpb.port" := ∅;
     "geonw.sec.v1.msg_type" := ∅; "geonw.sec.v2.app_id" := ∅ ]}.

(** The tables once both registration routines have run. *)
Definition tables : dissector_tables :=
  default ∅ (proto_reg_handoff_its msgid_value addGrpC regext_value
               (proto_register_its host_tables)).

Definition byte_value (b : Byte.byte) : Z := Z.of_N (Byte.to_N b).

(** A header decoder: one byte of version, one of message identifier,
    four of station identifier. *)
Definition dissect_header (tvb : tvbuff_t) : option (ItsPduHeader * tvbuff_t) :=
  match tvb_bytes tvb with
  | v :: m :: s3 :: s2 :: s1 :: s0 :: payload =>
      Some (mk_ItsPduHeader (byte_value v) (byte_value m)
              (((byte_value s3 * 256 + byte_value s2) * 256 + byte_value s1) * 256
               + byte_value s0),
            mk_tvbuff payload (tvb_reported tvb - 6))
  | _ => None
  end.

(** Every dissector takes the whole buffer. *)
Definition call_dissector_work (h : dissector_handle_t) (tvb : tvbuff_t) : Z :=
  tvb_captured_length tvb.

(** A dissector that rejects every buffer. *)
Definition reject_all (h : dissector_handle_t) (tvb : tvbuff_t) : Z := 0.

(** A DENM: version 1, message identifier 1, station 7, two bytes. *)
Definition denm_tvb : tvbuff_t :=
  mk_tvbuff [Byte.x01; Byte.x01; Byte.x00; Byte.x00; Byte.x00; Byte.x07;
             Byte.xaa; Byte.xbb] 8.

(** A message of a kind nobody registered (identifier 200). *)
Definition unknown_tvb : tvbuff_t :=
  mk_tvbuff [Byte.x01; Byte.xc8; Byte.x00; Byte.x00; Byte.x00; Byte.x07;
             Byte.xaa; Byte.xbb; Byte.xcc] 9.

(** The content of an open type. *)
Definition regext_tvb : tvbuff_t := mk_tvbuff [Byte.x10; Byte.x20; Byte.x30] 3.

End Sample.

(** ** The protocols of [proto_register_its] *)

Module Protocols.
Import Epan.

(** A protocol registration: the variable that receives the identifier,
    the name, the short name, the filter name, and the parent for a
    protocol registered in name only. *)
Record protocol_registration : Set := mk_protocol_registration {
  p_var : protocol;
  p_name : string;
  p_short_name : string;
  p_filter_name : string;
  p_parent : option protocol;
}.

Definition proto_register_its_protocols : list protocol_registration := [
  mk_protocol_registration proto_its
    "Intelligent Transport Systems" "ITS" "its" None;
  mk_protocol_registration proto_its_denm
    "ITS message - DENM" "DENM" "its.message.denm" (Some proto_its);
  mk_protocol_registration proto_its_cam
    "ITS message - CAM" "CAM" "its.message.cam" (Some proto_its);
  mk_protocol_registration proto_its_spatem
    "ITS message - SPATEM" "SPATEM" "its.message.spatem" (Some proto_its);
  mk_protocol_registration proto_its_mapem
    "ITS message - MAPEM" "MAPEM" "its.message.mapem" (Some proto_its);
  mk_protocol_registration proto_its_ivim
    "ITS message - IVIM" "IVIM" "its.message.ivim" (Some proto_its);
  mk_protocol_registration proto_its_evrsr
    "ITS message - EVRSR" "EVRSR" "its.message.evrsr" (Some proto_its);
  mk_protocol_registration proto_its_srem
    "ITS message - SREM" "SREM" "its.message.srem" (Some proto_its);
  mk_protocol_registration proto_its_ssem
    "ITS message - SSEM" "SSEM" "its.message.ssem" (Some proto_its);
  mk_protocol_registration proto_its_evcsn
    "ITS message - EVCSN" "EVCSN" "its.message.evcsn" (Some proto_its);
  mk_protocol_registration proto_its_tistpg
    "ITS message - TISTPG" "TISTPG" "its.message.tistpg" (Some proto_its);
  mk_protocol_registration proto_addgrpc
    "DSRC Addition Grp C (EU)" "ADDGRPC" "dsrc.addgrpc" (Some proto_its)
].

#[global] Instance protocol_registration_eq_dec :
  EqDecision protocol_registration.
Proof. solve_decision. Defined.

End Protocols.

(** ** The Decode-As callbacks *)

Module DecodeAs.

(** [GPOINTER_TO_UINT]: a pointer taken as an unsigned integer. *)
Definition GPOINTER_TO_UINT (p : Z) : Z := guint32 p.

(** [g_snprintf] into a buffer of [n] bytes: the text, cut to what fits
    before the terminating zero. *)
Definition g_snprintf (n : nat) (text : string) : string :=
  String.substring 0 (n - 1) text.

Section callbacks.

(** The packet information, and what the callbacks read of it:
    [pinfo->curr_layer_num], and the pointer [p_get_proto_data] finds
    for [hf_its_messageID] under a key (the framework function is not
    part of the sources; [NULL] is 0). *)
Variable packet_info : Type.
Variable curr_layer_num : packet_info → Z.
Variable p_get_proto_data : packet_info → Z → Z.

(** Two macros of headers that are not part of the sources. *)
Variable UTF8_RIGHTWARDS_ARROW : string.
Variable MAX_DECODE_AS_PROMPT_LEN : nat.

(** The prompt, ["MsgId (%s%u)"] with the arrow and the identifier. *)
Definition its_msgid_prompt (pinfo : packet_info) : string :=
  let msgid :=
    GPOINTER_TO_UINT (p_get_proto_data pinfo (curr_layer_num pinfo)) in
  g_snprintf MAX_DECODE_AS_PROMPT_LEN
    ("MsgId (" +:+ UTF8_RIGHTWARDS_ARROW +:+ pretty msgid +:+ ")").

Definition its_msgid_value (pinfo : packet_info) : Z :=
  p_get_proto_data pinfo (curr_layer_num pinfo).

End callbacks.

(** A concrete setting: the packet is its message identifier, the arrow
    is the three bytes of U+2192, the prompt buffer has 200 bytes. *)
Definition sample_arrow : string :=
  String (Ascii.ascii_of_nat 226)
    (String (Ascii.ascii_of_nat 134) (String (Ascii.ascii_of_nat 146) "")).

Definition sample_proto_data (pinfo : Z) (key : Z) : Z :=
  if key =? 1 then pinfo else 0.

End DecodeAs.

(** * Properties *)

Import SubCause Epan Its Dispatch.

(** A decidable closed statement, settled by evaluation. *)
Ltac by_compute := apply (bool_decide_unpack _); vm_compute; exact I.

(** ** Machine integers *)

Lemma guint32_range z : 0 <= guint32 z < 2 ^ 32.
Proof. unfold guint32. apply Z.mod_pos_bound. lia. Qed.

Lemma guint32_small z : 0 <= z < 2 ^ 32 -> guint32 z = z.
Proof. intros H. unfold guint32. by apply Z.mod_small. Qed.

Lemma guint32_idemp z : guint32 (guint32 z) = guint32 z.
Proof. apply guint32_small, guint32_range. Qed.

Lemma guint32_add z1 z2 : guint32 (guint32 z1 + guint32 z2) = guint32 (z1 + z2).
Proof. unfold guint32. by rewrite <- Z.add_mod by lia. Qed.

Lemma guint32_shiftl16 z :
  guint32 (Z.shiftl (guint32 z) 16) = guint32 (Z.shiftl z 16).
Proof.
  unfold guint32. rewrite !Z.shiftl_mul_pow2 by lia.
  by rewrite Z.mul_mod_idemp_l by lia.
Qed.

(** ** Cause code / sub-cause code management *)

Section subcause_facts.

Variable enum_value : CauseCodeType_enum → Z.

(** The loop is a search for the first row that ends it. *)
Lemma find_subcause_loop_list_find tbl c fuel idx :
  (length tbl ≤ idx + fuel)%nat →
  find_subcause_loop enum_value tbl fuel c idx
  = (λ p, (idx + p.1)%nat) <$>
      list_find (λ e, loop_cond enum_value c e = false) (drop idx tbl).
Proof.
  revert idx. induction fuel as [|fuel IH]; intros idx Hlen; simpl.
  - rewrite drop_ge by lia. done.
  - destruct (tbl !! idx) as [e|] eqn:He.
    + rewrite (drop_S _ _ _ He). simpl.
      destruct (loop_cond enum_value c e) eqn:Hc.
      * rewrite decide_False by done.
        rewrite IH by lia. rewrite <- option_fmap_compose.
        apply option_fmap_ext. intros [i x]. simpl. lia.
      * rewrite decide_True by done. simpl. f_equal. lia.
    + apply lookup_ge_None in He. rewrite drop_ge by lia. done.
Qed.

Lemma find_subcause_from_cause_list_find c :
  find_subcause_from_cause enum_value c
  = (λ p, default hf_its_subCauseCode (hf p.2)) <$>
      list_find (λ e, loop_cond enum_value c e = false) cause_to_subcause.
Proof.
  unfold find_subcause_from_cause.
  rewrite find_subcause_loop_list_find by (simpl; lia).
  rewrite drop_0.
  destruct (list_find _ cause_to_subcause) as [[i e]|] eqn:Hf; [|done].
  apply list_find_Some in Hf as (Hi & _ & _). simpl.
  rewrite Hi. simpl. by destruct (hf e).
Qed.

End subcause_facts.

Section subcause_claims.

Variable enum_value : CauseCodeType_enum → Z.

(** The table ends in a row without a field, so the loop always stops
    inside the table: the lookup returns for every integer. *)
Lemma find_subcause_from_cause_total c :
  is_Some (find_subcause_from_cause enum_value c).
Proof.
  rewrite find_subcause_from_cause_list_find.
  apply fmap_is_Some.
  apply (list_find_elem_of _ _ (mk_cause_to_subcause reserved None)).
  - unfold cause_to_subcause. set_solver.
  - done.
Qed.

(** The row the loop stops at either has no field or names the cause. *)
Lemma loop_cond_false c e :
  loop_cond enum_value c e = false ↔ hf e = None ∨ enum_value (cause e) = c.
Proof.
  unfold loop_cond. destruct (hf e) as [h|]; simpl.
  - rewrite negb_false_iff, Z.eqb_eq. split; [by right | by intros [|]].
  - split; [by left | done].
Qed.

Lemma known_causes_spec k :
  k ∈ known_causes ↔ ∃ e, e ∈ cause_to_subcause ∧ is_Some (hf e) ∧ cause e = k.
Proof.
  unfold known_causes, known_rows. rewrite list_elem_of_fmap. split.
  - intros (e & -> & [? ?]%list_elem_of_filter). eauto.
  - intros (e & ? & ? & <-). exists e. split; [done|].
    by apply list_elem_of_filter.
Qed.

(** A value that no known enumerator stands for gets the generic field. *)
Lemma find_subcause_from_cause_unknown c :
  (∀ k, k ∈ known_causes → enum_value k ≠ c) →
  find_subcause_from_cause enum_value c = Some hf_its_subCauseCode.
Proof.
  intros Hc. rewrite find_subcause_from_cause_list_find.
  destruct (find_subcause_from_cause_total c) as [h Hh].
  rewrite find_subcause_from_cause_list_find in Hh.
  destruct (list_find _ cause_to_subcause) as [[i e]|] eqn:Hf; [|done].
  apply list_find_Some in Hf as (Hi & [Hnone | Heq]%loop_cond_false & _); simpl.
  - by rewrite Hnone.
  - destruct (hf e) as [h'|] eqn:Hhf; [|done].
    destruct (Hc (cause e)); [|done].
    apply known_causes_spec. exists e. split_and!; eauto.
    by eapply list_elem_of_lookup_2.
Qed.

(** A result other than the generic field comes from a known cause. *)
Lemma find_subcause_from_cause_specific c h :
  find_subcause_from_cause enum_value c = Some h → h ≠ hf_its_subCauseCode →
  ∃ k, k ∈ known_causes ∧ c = enum_value k.
Proof.
  intros Hfind Hh.
  destruct (decide (Exists (λ k, c = enum_value k) known_causes)) as [Hex|Hno].
  - apply Exists_exists in Hex. naive_solver.
  - rewrite find_subcause_from_cause_unknown in Hfind; [congruence|].
    intros k Hk Heq. apply Hno, Exists_exists. eauto.
Qed.

Hypothesis enum_value_inj : Inj (=) (=) enum_value.

(** With distinct enumerators, the lookup of an enumerator of the table
    returns the field of its row. *)
Lemma find_subcause_from_cause_known k :
  k ∈ known_causes →
  find_subcause_from_cause enum_value (enum_value k) = field_of_cause k.
Proof.
  intros Hk. rewrite find_subcause_from_cause_list_find.
  rewrite (list_find_ext _ (λ e, hf e = None ∨ cause e = k)).
  2:{ intros e. rewrite loop_cond_false.
      split; (intros [?|Heq]; [by left|right]);
        [by apply enum_value_inj | by rewrite Heq]. }
  unfold known_causes, known_rows in Hk.
  revert Hk. rewrite list_elem_of_fmap. intros (e & -> & He).
  revert e He. apply Forall_forall. by_compute.
Qed.

End subcause_claims.

(** Closed facts about the table. *)
Lemma known_causes_length : length known_causes = 24%nat.
Proof. reflexivity. Qed.

Lemma known_causes_NoDup : NoDup known_causes.
Proof. by_compute. Qed.

Lemma reserved_not_known : reserved ∉ known_causes.
Proof. by_compute. Qed.

Lemma field_of_cause_specific k :
  k ∈ known_causes →
  ∃ h, field_of_cause k = Some h ∧ h ≠ hf_its_subCauseCode.
Proof.
  revert k. apply Forall_forall. vm_compute.
  repeat constructor; eexists; (split; [reflexivity | discriminate]).
Qed.

Lemma field_of_cause_inj k1 k2 :
  k1 ∈ known_causes → field_of_cause k1 = field_of_cause k2 → k1 = k2.
Proof.
  intros Hk1 Heq.
  destruct k1; try (by (exfalso; revert Hk1; apply reserved_not_known)).
  all: destruct k2; try reflexivity.
  all: vm_compute in Heq; discriminate Heq.
Qed.

(** Each field of the table is registered with a value-string table of
    its own. *)
Lemma vals_of_field_inj k1 k2 h1 h2 :
  k1 ∈ known_causes → k2 ∈ known_causes →
  field_of_cause k1 = Some h1 → field_of_cause k2 = Some h2 →
  is_Some (vals_of h1) ∧ (vals_of h1 = vals_of h2 → k1 = k2).
Proof.
  intros Hk1 Hk2 H1 H2.
  destruct k1; try (by (exfalso; revert Hk1; apply reserved_not_known)).
  all: vm_compute in H1; injection H1 as <-; (split; [by eexists|]).
  all: destruct k2; try (by (exfalso; revert Hk2; apply reserved_not_known)).
  all: vm_compute in H2; injection H2 as <-.
  all: try reflexivity.
  all: intros Hv; vm_compute in Hv; discriminate Hv.
Qed.

(** C2. A cause code value that is none of the known enumerators of the
    association table resolves to the generic sub-cause field
    [hf_its_subCauseCode], and the lookup returns (it raises nothing):
    this covers values outside the enumeration, the [reserved]
    enumerator whenever it is numbered apart from the known ones, and a
    sub-cause code resolved while no cause code is recorded. *)
Theorem unknown_cause_resolves_to_generic_field
    (enum_value : CauseCodeType_enum → Z) (c : Z) :
  (∀ k, k ∈ known_causes → enum_value k ≠ c) →
  find_subcause_from_cause enum_value c = Some hf_its_subCauseCode
  ∧ vocabularyFor_active enum_value (cause_set c) = Some hf_its_subCauseCode
  ∧ vocabularyFor_active enum_value cause_unset = Some hf_its_subCauseCode
  ∧ (Inj (=) (=) enum_value →
     find_subcause_from_cause enum_value (enum_value reserved)
     = Some hf_its_subCauseCode)
  ∧ (∀ c', is_Some (find_subcause_from_cause enum_value c')).
Proof.
  intros Hc. split_and!.
  - by apply find_subcause_from_cause_unknown.
  - by apply find_subcause_from_cause_unknown.
  - reflexivity.
  - intros Hinj. apply find_subcause_from_cause_unknown.
    intros k Hk Heq. apply Hinj in Heq as ->.
    by apply reserved_not_known.
  - apply find_subcause_from_cause_total.
Qed.

Lemma cause_value_inj : Inj (=) (=) Sample.cause_value.
Proof. intros k1 k2 H. destruct k1, k2; (reflexivity || discriminate H). Qed.

Lemma unknown_cause_resolves_to_generic_field_witness :
  find_subcause_from_cause Sample.cause_value 200 = Some hf_its_subCauseCode
  ∧ find_subcause_from_cause Sample.cause_value (Sample.cause_value reserved)
    = Some hf_its_subCauseCode.
Proof.
  assert (H : ∀ k, k ∈ known_causes → Sample.cause_value k ≠ 200).
  { apply Forall_forall. vm_compute. repeat constructor; discriminate. }
  destruct (unknown_cause_resolves_to_generic_field Sample.cause_value 200 H)
    as (H1 & _ & _ & H4 & _).
  split; [exact H1 | exact (H4 cause_value_inj)].
Defined.

Lemma known_values_NoDup (enum_value : CauseCodeType_enum → Z) :
  Inj (=) (=) enum_value → NoDup (enum_value <$> known_causes).
Proof. intros Hinj. apply (NoDup_fmap_2 _), known_causes_NoDup. Qed.

Lemma known_value_specific (enum_value : CauseCodeType_enum → Z) k :
  Inj (=) (=) enum_value → k ∈ known_causes →
  ∃ h, find_subcause_from_cause enum_value (enum_value k) = Some h
       ∧ h ≠ hf_its_subCauseCode.
Proof.
  intros Hinj Hk. rewrite find_subcause_from_cause_known by done.
  by apply field_of_cause_specific.
Qed.

(** C3, amended. The association table knows 24 enumerators (not 23).
    With the enumerators numbered apart, the lookup yields a field other
    than the generic one for exactly their 24 values, no two of them
    share that field, and no two of those fields share a value-string
    table. *)
Theorem known_causes_have_their_own_vocabulary
    (enum_value : CauseCodeType_enum → Z) :
  Inj (=) (=) enum_value →
  length (enum_value <$> known_causes) = 24%nat
  ∧ NoDup (enum_value <$> known_causes)
  ∧ (∀ c, (∃ h, find_subcause_from_cause enum_value c = Some h
                ∧ h ≠ hf_its_subCauseCode)
          ↔ c ∈ enum_value <$> known_causes)
  ∧ (∀ k1 k2, k1 ∈ known_causes → k2 ∈ known_causes →
       find_subcause_from_cause enum_value (enum_value k1)
       = find_subcause_from_cause enum_value (enum_value k2) →
       k1 = k2)
  ∧ (∀ k1 k2 h1 h2, k1 ∈ known_causes → k2 ∈ known_causes →
       find_subcause_from_cause enum_value (enum_value k1) = Some h1 →
       find_subcause_from_cause enum_value (enum_value k2) = Some h2 →
       is_Some (vals_of h1) ∧ (vals_of h1 = vals_of h2 → k1 = k2)).
Proof.
  intros Hinj. split_and!.
  - by rewrite length_fmap.
  - by apply known_values_NoDup.
  - intros c. rewrite list_elem_of_fmap. split.
    + intros (h & Hfind & Hh).
      destruct (find_subcause_from_cause_specific _ _ _ Hfind Hh) as (k & ? & ?).
      eauto.
    + intros (k & -> & Hk). by apply known_value_specific.
  - intros k1 k2 Hk1 Hk2.
    rewrite !find_subcause_from_cause_known by done.
    by apply field_of_cause_inj.
  - intros k1 k2 h1 h2 Hk1 Hk2.
    rewrite !find_subcause_from_cause_known by done.
    by apply vals_of_field_inj.
Qed.

Lemma known_causes_have_their_own_vocabulary_witness :
  Inj (=) (=) Sample.cause_value
  ∧ ∃ h, find_subcause_from_cause Sample.cause_value 3 = Some h
         ∧ h ≠ hf_its_subCauseCode.
Proof.
  split; [exact cause_value_inj|].
  destruct (known_causes_have_their_own_vocabulary Sample.cause_value
              cause_value_inj) as (_ & _ & H & _).
  apply H. by_compute.
Defined.

(** C3 as stated fails: the values that resolve to a field other than
    the generic one cannot be listed as 23 enumerators. *)
Lemma known_causes_are_not_23 :
  ¬ ∃ l : list Z,
      length l = 23%nat
      ∧ ∀ c, c ∈ l ↔ ∃ h, find_subcause_from_cause Sample.cause_value c = Some h
                          ∧ h ≠ hf_its_subCauseCode.
Proof.
  intros (l & Hlen & Hl).
  assert (Hsub : Sample.cause_value <$> known_causes ⊆+ l).
  { apply NoDup_submseteq; [apply known_values_NoDup, cause_value_inj|].
    intros c (k & -> & Hk)%list_elem_of_fmap.
    apply Hl, known_value_specific; [apply cause_value_inj | done]. }
  apply submseteq_length in Hsub. rewrite length_fmap in Hsub.
  rewrite known_causes_length in Hsub. lia.
Qed.

(** The scenario of the spec: the sub-cause code that follows the cause
    code [roadworks] is shown with the field of the roadworks table. *)
Lemma roadworks_scenario :
  find_subcause_from_cause Sample.cause_value (Sample.cause_value roadworks)
  = Some hf_its_roadworksSubCauseCode
  ∧ vals_of hf_its_roadworksSubCauseCode = Some "its_RoadworksSubCauseCode_vals".
Proof. split; reflexivity. Qed.

(** ** Dissector tables *)

Lemma dissector_add_uint_Some name pattern handle tables tables' :
  dissector_add_uint name pattern handle tables = Some tables' ↔
  ∃ sub_dissectors,
    tables !! name = Some sub_dissectors
    ∧ sub_dissectors !! guint32 pattern = None
    ∧ tables' = <[name := <[guint32 pattern := handle]> sub_dissectors]> tables.
Proof.
  unfold dissector_add_uint. destruct (tables !! name) as [sub|]; simpl.
  - destruct (sub !! guint32 pattern) eqn:Hp; split.
    + done.
    + intros (? & [= <-] & ? & _). congruence.
    + intros [= <-]. eauto.
    + intros (? & [= <-] & _ & ->). done.
  - split; [done | by intros (? & ? & _)].
Qed.

(** A registration binds its pattern. *)
Lemma dissector_add_uint_bound name pattern handle tables tables' :
  dissector_add_uint name pattern handle tables = Some tables' →
  dissector_get_uint_handle tables' name (guint32 pattern) = Some handle.
Proof.
  intros (sub & _ & _ & ->)%dissector_add_uint_Some.
  unfold dissector_get_uint_handle.
  rewrite lookup_insert_eq. simpl. by rewrite lookup_insert_eq.
Qed.

(** A registration is refused unless its pattern was free. *)
Lemma dissector_add_uint_was_free name pattern handle tables tables' :
  dissector_add_uint name pattern handle tables = Some tables' →
  dissector_get_uint_handle tables name (guint32 pattern) = None.
Proof.
  intros (sub & Hsub & Hfree & _)%dissector_add_uint_Some.
  unfold dissector_get_uint_handle. by rewrite Hsub.
Qed.

(** A registration leaves every other binding as it was. *)
Lemma dissector_add_uint_other name pattern handle tables tables' name' k :
  dissector_add_uint name pattern handle tables = Some tables' →
  (name', k) ≠ (name, guint32 pattern) →
  dissector_get_uint_handle tables' name' k
  = dissector_get_uint_handle tables name' k.
Proof.
  intros (sub & Hsub & _ & ->)%dissector_add_uint_Some Hne.
  unfold dissector_get_uint_handle.
  destruct (decide (name' = name)) as [->|Hn].
  - rewrite lookup_insert_eq, Hsub. simpl.
    rewrite lookup_insert_ne; [done | congruence].
  - by rewrite lookup_insert_ne.
Qed.

Lemma dissector_add_uint_keeps name pattern handle tables tables' name' k h :
  dissector_add_uint name pattern handle tables = Some tables' →
  dissector_get_uint_handle tables name' k = Some h →
  dissector_get_uint_handle tables' name' k = Some h.
Proof.
  intros Hadd Hget.
  rewrite (dissector_add_uint_other _ _ _ _ _ _ _ Hadd); [done|].
  intros [= -> ->].
  rewrite (dissector_add_uint_was_free _ _ _ _ _ Hadd) in Hget. done.
Qed.

Lemma dissector_add_all_keeps calls tables tables' name k h :
  dissector_add_all calls tables = Some tables' →
  dissector_get_uint_handle tables name k = Some h →
  dissector_get_uint_handle tables' name k = Some h.
Proof.
  revert tables. induction calls as [|[[n p] h0] calls IH]; intros tables; simpl.
  - by intros [= <-].
  - destruct (dissector_add_uint n p h0 tables) as [tables1|] eqn:Hadd;
      simpl; [|done].
    intros Hall Hget. apply (IH tables1); [done|].
    by eapply dissector_add_uint_keeps.
Qed.

(** After a row of registrations, each pattern of the row is bound to
    the handle it was registered with. *)
Lemma dissector_add_all_bound calls tables tables' name pattern handle :
  dissector_add_all calls tables = Some tables' →
  (name, pattern, handle) ∈ calls →
  dissector_get_uint_handle tables' name (guint32 pattern) = Some handle.
Proof.
  revert tables. induction calls as [|[[n p] h0] calls IH]; intros tables; simpl.
  - intros _ Hin. by apply elem_of_nil in Hin.
  - destruct (dissector_add_uint n p h0 tables) as [tables1|] eqn:Hadd;
      simpl; [|done].
    intros Hall [[= -> -> ->]|Hin]%elem_of_cons.
    + eapply dissector_add_all_keeps; [done|].
      by eapply dissector_add_uint_bound.
    + by apply (IH tables1).
Qed.

(** ... and a pattern that is not in the row is bound as before. *)
Lemma dissector_add_all_other calls tables tables' name k :
  dissector_add_all calls tables = Some tables' →
  (∀ pattern handle, (name, pattern, handle) ∈ calls → guint32 pattern ≠ k) →
  dissector_get_uint_handle tables' name k
  = dissector_get_uint_handle tables name k.
Proof.
  revert tables. induction calls as [|[[n p] h0] calls IH]; intros tables; simpl.
  - by intros [= <-].
  - destruct (dissector_add_uint n p h0 tables) as [tables1|] eqn:Hadd;
      simpl; [|done].
    intros Hall Hk. rewrite (IH tables1 Hall).
    + apply (dissector_add_uint_other _ _ _ _ _ _ _ Hadd).
      intros [= -> Hp]. by apply (Hk p h0); [left | done].
    + intros p' h' Hin. apply (Hk p' h'), elem_of_cons. by right.
Qed.

(** Registrations with distinct patterns, each free in a table that
    exists, all succeed. *)
Lemma dissector_add_all_succeeds calls tables :
  NoDup (patterns_of calls) →
  (∀ name pattern handle, (name, pattern, handle) ∈ calls →
     is_Some (tables !! name)
     ∧ dissector_get_uint_handle tables name (guint32 pattern) = None) →
  is_Some (dissector_add_all calls tables).
Proof.
  revert tables. induction calls as [|[[n p] h0] calls IH]; intros tables; simpl.
  - eauto.
  - intros [Hnotin Hnodup]%NoDup_cons Hfree.
    destruct (Hfree n p h0) as [[sub Hsub] Hnone]; [by left|].
    destruct (dissector_add_uint n p h0 tables) as [tables1|] eqn:Hadd.
    + simpl. apply IH; [done|]. intros n' p' h' Hin.
      destruct (Hfree n' p' h') as [[sub' Hsub'] Hnone']; [by right|].
      split.
      * apply dissector_add_uint_Some in Hadd as (? & ? & _ & ->).
        destruct (decide (n' = n)) as [->|?].
        -- rewrite lookup_insert_eq. eauto.
        -- rewrite lookup_insert_ne by done. eauto.
      * rewrite (dissector_add_uint_other _ _ _ _ _ _ _ Hadd); [done|].
        intros [= -> Hp]. apply Hnotin.
        unfold patterns_of. apply list_elem_of_fmap.
        exists (n, p', h'). split; [simpl; congruence | done].
    + exfalso. unfold dissector_add_uint in Hadd. rewrite Hsub in Hadd.
      simpl in Hadd. unfold dissector_get_uint_handle in Hnone.
      rewrite Hsub in Hnone. simpl in Hnone. by rewrite Hnone in Hadd.
Qed.

(** ** The regional-extension resolver *)

Lemma regextval_key_eq re :
  regextval_key re = guint32 (Z.shiftl (region_id re) 16 + type re).
Proof.
  unfold regextval_key. by rewrite guint32_shiftl16, guint32_add.
Qed.

Lemma regextval_key_small re :
  0 <= region_id re < 2 ^ 16 → 0 <= type re < 2 ^ 16 →
  regextval_key re = region_id re * 2 ^ 16 + type re.
Proof.
  intros Hr Ht. rewrite regextval_key_eq, Z.shiftl_mul_pow2 by lia.
  apply guint32_small. lia.
Qed.

Section regextval.

Variable call_dissector_work : dissector_handle_t → tvbuff_t → Z.

(** The resolver, case by case. *)
Lemma dissect_regextval_pdu_cases tables tvb re :
  dissect_regextval_pdu call_dissector_work tables tvb re
  = match dissector_get_uint_handle tables regionid_subdissector_table
            (regextval_key re) with
    | Some h =>
        mk_dissect (tvb_captured_length tvb)
          (ev_call_dissector h tvb ::
           if call_dissector_work h tvb =? 0
           then [ev_call_data_dissector tvb] else [])
    | None => mk_dissect (tvb_captured_length tvb) [ev_call_data_dissector tvb]
    end.
Proof.
  unfold dissect_regextval_pdu, dissector_try_uint_new.
  destruct (dissector_get_uint_handle _ _ _) as [h|]; [|reflexivity].
  cbn. by destruct (call_dissector_work h tvb =? 0).
Qed.


(** C8. The resolver looks up one key, the region identifier recorded in
    the private data shifted left by 16 bits plus the extension kind in
    it, and hands the payload to the handler registered under that key
    (and to no other handler); the cause code in the private data plays
    no part. *)
Theorem resolver_uses_region_and_extension_kind tables tvb re :
  regextval_key re = guint32 (Z.shiftl (region_id re) 16 + type re)
  ∧ invoked (log (dissect_regextval_pdu call_dissector_work tables tvb re))
    = option_list
        (dissector_get_uint_handle tables regionid_subdissector_table
           (guint32 (Z.shiftl (region_id re) 16 + type re)))
  ∧ log (dissect_regextval_pdu call_dissector_work tables tvb re)
    = match dissector_get_uint_handle tables regionid_subdissector_table
              (guint32 (Z.shiftl (region_id re) 16 + type re)) with
      | Some h =>
          ev_call_dissector h tvb ::
          (if call_dissector_work h tvb =? 0
           then [ev_call_data_dissector tvb] else [])
      | None => [ev_call_data_dissector tvb]
      end
  ∧ (∀ c, dissect_regextval_pdu call_dissector_work tables tvb
            (mk_its_private_data (type re) (region_id re) c)
          = dissect_regextval_pdu call_dissector_work tables tvb re).
Proof.
  split_and!.
  - apply regextval_key_eq.
  - rewrite dissect_regextval_pdu_cases, <- regextval_key_eq.
    destruct (dissector_get_uint_handle _ _ _) as [h|]; [|reflexivity].
    simpl. by destruct (call_dissector_work h tvb =? 0).
  - rewrite dissect_regextval_pdu_cases, <- regextval_key_eq.
    by destruct (dissector_get_uint_handle _ _ _).
  - intros c. by rewrite !dissect_regextval_pdu_cases, !regextval_key_eq.
Qed.

(** C9. The resolver reports the captured length of its buffer as the
    number of bytes consumed, with a handler as well as without. *)
Theorem resolver_consumes_captured_length tables tvb re :
  value (dissect_regextval_pdu call_dissector_work tables tvb re)
  = tvb_captured_length tvb.
Proof.
  rewrite dissect_regextval_pdu_cases.
  by destruct (dissector_get_uint_handle _ _ _).
Qed.

End regextval.


(** ** The composite key and the registrations of the handoff *)

(** Below [2^16] on both sides, the key determines region and kind. *)
Lemma regextval_key_inj re1 re2 :
  0 <= region_id re1 < 2 ^ 16 → 0 <= type re1 < 2 ^ 16 →
  0 <= region_id re2 < 2 ^ 16 → 0 <= type re2 < 2 ^ 16 →
  regextval_key re1 = regextval_key re2 →
  region_id re1 = region_id re2 ∧ type re1 = type re2.
Proof.
  intros Hr1 Ht1 Hr2 Ht2. rewrite !regextval_key_small by done. lia.
Qed.

Section handoff.

Variable msgid_value : its_msgid → Z.
Variable addGrpC : Z.
Variable regext_value : regext_type_enum → Z.

(** The patterns the handoff binds in the regional-extension table are
    those of the eight extension kinds under [addGrpC]. *)
Lemma regionid_registered_patterns :
  registered_patterns "dsrc.regionid"
    (proto_reg_handoff_its_calls msgid_value addGrpC regext_value)
  = (λ t, guint32 (Z.shiftl addGrpC 16 + regext_value t)) <$> all_regext_type.
Proof. reflexivity. Qed.

Lemma msgid_registered_patterns :
  registered_patterns "its.msg_id"
    (proto_reg_handoff_its_calls msgid_value addGrpC regext_value)
  = (λ m, guint32 (msgid_value m)) <$> all_its_msgid.
Proof. reflexivity. Qed.

Lemma addGrpC_pattern_inj t1 t2 :
  (∀ t, 0 <= regext_value t < 2 ^ 16) → Inj (=) (=) regext_value →
  guint32 (Z.shiftl addGrpC 16 + regext_value t1)
  = guint32 (Z.shiftl addGrpC 16 + regext_value t2) →
  t1 = t2.
Proof.
  intros Hrange Hinj Heq. apply Hinj.
  pose proof (Hrange t1). pose proof (Hrange t2).
  unfold guint32 in Heq.
  rewrite <- (Z.add_mod_idemp_l (Z.shiftl addGrpC 16) (regext_value t1)) in Heq
    by lia.
  rewrite <- (Z.add_mod_idemp_l (Z.shiftl addGrpC 16) (regext_value t2)) in Heq
    by lia.
  pose proof (Z.mod_pos_bound (Z.shiftl addGrpC 16) (2 ^ 32) ltac:(lia)) as Hb.
  set (a := Z.shiftl addGrpC 16 mod 2 ^ 32) in *.
  assert (Hcase : ∀ v, 0 <= v < 2 ^ 16 →
            (a + v) mod 2 ^ 32 = a + v ∨ (a + v) mod 2 ^ 32 = a + v - 2 ^ 32).
  { intros v Hv. destruct (decide (a + v < 2 ^ 32)).
    - left. apply Z.mod_small. lia.
    - right. symmetry. apply (Z.mod_unique_pos _ _ 1); lia. }
  destruct (Hcase _ H) as [E1|E1], (Hcase _ H0) as [E2|E2];
    rewrite E1, E2 in Heq; lia.
Qed.

Lemma registered_patterns_cons name n p h calls :
  registered_patterns name ((n, p, h) :: calls)
  = if decide (n = name) then guint32 p :: registered_patterns name calls
    else registered_patterns name calls.
Proof.
  unfold registered_patterns. rewrite filter_cons. simpl.
  by destruct (decide (n = name)).
Qed.

Lemma registered_patterns_elem_of name pattern handle calls :
  (name, pattern, handle) ∈ calls →
  guint32 pattern ∈ registered_patterns name calls.
Proof.
  intros Hin. unfold registered_patterns. apply list_elem_of_fmap.
  exists (name, pattern, handle). split; [done|].
  by apply list_elem_of_filter.
Qed.

(** Patterns are distinct when they are distinct table by table. *)
Lemma patterns_of_NoDup calls :
  (∀ name, NoDup (registered_patterns name calls)) →
  NoDup (patterns_of calls).
Proof.
  induction calls as [|[[n p] h] calls IH]; intros Hall; [constructor|].
  unfold patterns_of. rewrite fmap_cons. simpl. apply NoDup_cons. split.
  - intros ([[n' p'] h'] & [= <- Hp] & Hin)%list_elem_of_fmap.
    specialize (Hall n). rewrite registered_patterns_cons in Hall.
    rewrite decide_True in Hall by done.
    apply NoDup_cons in Hall as [Hnotin _]. apply Hnotin.
    rewrite Hp. by eapply registered_patterns_elem_of.
  - apply IH. intros name. specialize (Hall name).
    rewrite registered_patterns_cons in Hall.
    destruct (decide (n = name)); [by apply NoDup_cons in Hall as [_ ?]|done].
Qed.

Lemma proto_reg_handoff_its_calls_tables :
  Forall (λ c, c.1.1 ∈ proto_reg_handoff_its_tables)
    (proto_reg_handoff_its_calls msgid_value addGrpC regext_value).
Proof. by_compute. Qed.

Lemma v1_registered_patterns :
  registered_patterns "geonw.sec.v1.msg_type"
    (proto_reg_handoff_its_calls msgid_value addGrpC regext_value)
  = (λ m, guint32 (msgid_value m)) <$> [ITS_DENM; ITS_CAM].
Proof. reflexivity. Qed.

(** The handoff never registers a pattern twice. *)
Lemma proto_reg_handoff_its_calls_NoDup :
  Inj (=) (=) msgid_value → (∀ m, 0 <= msgid_value m < 2 ^ 32) →
  Inj (=) (=) regext_value → (∀ t, 0 <= regext_value t < 2 ^ 16) →
  NoDup (patterns_of
           (proto_reg_handoff_its_calls msgid_value addGrpC regext_value)).
Proof.
  intros Hminj Hmrange Hrinj Hrrange.
  assert (Hm : ∀ m1 m2, guint32 (msgid_value m1) = guint32 (msgid_value m2) →
                 m1 = m2).
  { intros m1 m2. rewrite !guint32_small by done. apply Hminj. }
  apply patterns_of_NoDup. intros name.
  destruct (decide (name ∈ proto_reg_handoff_its_tables)) as [Hin|Hout].
  - unfold proto_reg_handoff_its_tables in Hin.
    repeat (apply elem_of_cons in Hin as [->|Hin]).
    + by_compute.
    + by_compute.
    + rewrite v1_registered_patterns.
      apply NoDup_fmap_2_strong; [eauto | by_compute].
    + by_compute.
    + rewrite msgid_registered_patterns.
      apply NoDup_fmap_2_strong; [eauto | by_compute].
    + rewrite regionid_registered_patterns.
      apply NoDup_fmap_2_strong; [|by_compute].
      intros t1 t2 _ _. by apply addGrpC_pattern_inj.
    + by apply elem_of_nil in Hin.
  - unfold registered_patterns.
    destruct (filter _ _) as [|c l] eqn:Hf; [constructor|].
    assert (Hc : c ∈ filter (λ c, c.1.1 = name)
                   (proto_reg_handoff_its_calls msgid_value addGrpC
                      regext_value)) by (rewrite Hf; left).
    apply list_elem_of_filter in Hc as [<- Hc]. destruct Hout.
    clear Hf. revert c Hc.
    apply Forall_forall, proto_reg_handoff_its_calls_tables.
Qed.

Lemma proto_register_its_lookup host name :
  name ∈ [its_version_subdissector_table; its_msgid_subdissector_table;
          regionid_subdissector_table] →
  proto_register_its host !! name = Some ∅.
Proof.
  unfold proto_register_its, register_dissector_table. intros Hin.
  repeat (apply elem_of_cons in Hin as [->|Hin]); [..|by apply elem_of_nil in Hin].
  - rewrite lookup_insert_ne by done.
    rewrite lookup_insert_ne by done. by rewrite lookup_insert_eq.
  - rewrite lookup_insert_ne by done. by rewrite lookup_insert_eq.
  - by rewrite lookup_insert_eq.
Qed.

Lemma proto_register_its_lookup_other host name :
  name ∉ [its_version_subdissector_table; its_msgid_subdissector_table;
          regionid_subdissector_table] →
  proto_register_its host !! name = host !! name.
Proof.
  unfold proto_register_its, register_dissector_table. intros Hout.
  rewrite !not_elem_of_cons in Hout. destruct Hout as (? & ? & ? & _).
  by rewrite !lookup_insert_ne.
Qed.

(** Startup completes: on a host that has the tables of the transport
    dissectors, with the patterns free, every registration succeeds. *)
Lemma proto_reg_handoff_its_succeeds host :
  Inj (=) (=) msgid_value → (∀ m, 0 <= msgid_value m < 2 ^ 32) →
  Inj (=) (=) regext_value → (∀ t, 0 <= regext_value t < 2 ^ 16) →
  host_accepts_its msgid_value addGrpC regext_value host →
  is_Some (proto_reg_handoff_its msgid_value addGrpC regext_value
             (proto_register_its host)).
Proof.
  intros Hminj Hmrange Hrinj Hrrange Hhost.
  apply dissector_add_all_succeeds.
  - by apply proto_reg_handoff_its_calls_NoDup.
  - intros name pattern handle Hin. unfold dissector_get_uint_handle.
    destruct (decide (name ∈ [its_version_subdissector_table;
                              its_msgid_subdissector_table;
                              regionid_subdissector_table])) as [Hits|Hext].
    + rewrite proto_register_its_lookup by done. split; [eauto|done].
    + rewrite proto_register_its_lookup_other by done.
      by apply (Hhost name pattern handle).
Qed.

End handoff.

(** C10, amended. The key is the region identifier shifted left by 16
    bits plus the extension kind, in 32-bit unsigned arithmetic. It
    determines the pair when both the region identifier and the
    extension kind are below [2^16] (the bound on the extension kind
    alone is not enough). The handoff registers eight keys under
    [addGrpC], and with the extension kinds numbered apart below [2^16]
    they are pairwise distinct. *)
Theorem regextval_key_injective_below_2_16
    (msgid_value : its_msgid → Z) (addGrpC : Z)
    (regext_value : regext_type_enum → Z) :
  Inj (=) (=) regext_value → (∀ t, 0 <= regext_value t < 2 ^ 16) →
  (∀ re, regextval_key re
         = (Z.shiftl (region_id re) 16 + type re) mod 2 ^ 32)
  ∧ (∀ re1 re2,
       0 <= region_id re1 < 2 ^ 16 → 0 <= type re1 < 2 ^ 16 →
       0 <= region_id re2 < 2 ^ 16 → 0 <= type re2 < 2 ^ 16 →
       regextval_key re1 = regextval_key re2 →
       region_id re1 = region_id re2 ∧ type re1 = type re2)
  ∧ length (registered_patterns "dsrc.regionid"
              (proto_reg_handoff_its_calls msgid_value addGrpC regext_value))
    = 8%nat
  ∧ NoDup (registered_patterns "dsrc.regionid"
             (proto_reg_handoff_its_calls msgid_value addGrpC regext_value))
  ∧ (∀ c, registered_patterns "dsrc.regionid"
            (proto_reg_handoff_its_calls msgid_value addGrpC regext_value)
          = (λ t, regextval_key (mk_its_private_data (regext_value t) addGrpC c))
            <$> all_regext_type).
Proof.
  intros Hinj Hrange. split_and!.
  - apply regextval_key_eq.
  - apply regextval_key_inj.
  - reflexivity.
  - rewrite regionid_registered_patterns.
    apply NoDup_fmap_2_strong; [|by_compute].
    intros t1 t2 _ _. by apply addGrpC_pattern_inj.
  - intros c. rewrite regionid_registered_patterns.
    apply list_fmap_ext. intros _ t _. by rewrite regextval_key_eq.
Qed.

Lemma regext_value_inj : Inj (=) (=) Sample.regext_value.
Proof. intros t1 t2 H. destruct t1, t2; (reflexivity || discriminate H). Qed.

Lemma regext_value_range t : 0 <= Sample.regext_value t < 2 ^ 16.
Proof. destruct t; simpl; lia. Qed.

Lemma msgid_value_inj : Inj (=) (=) Sample.msgid_value.
Proof. intros m1 m2 H. destruct m1, m2; (reflexivity || discriminate H). Qed.

Lemma msgid_value_range m : 0 <= Sample.msgid_value m < 2 ^ 32.
Proof. destruct m; simpl; lia. Qed.

Lemma regextval_key_injective_below_2_16_witness :
  Inj (=) (=) Sample.regext_value
  ∧ (∀ t, 0 <= Sample.regext_value t < 2 ^ 16)
  ∧ NoDup (registered_patterns "dsrc.regionid"
             (proto_reg_handoff_its_calls Sample.msgid_value Sample.addGrpC
                Sample.regext_value)).
Proof.
  split; [exact regext_value_inj|]. split; [exact regext_value_range|].
  destruct (regextval_key_injective_below_2_16 Sample.msgid_value
              Sample.addGrpC Sample.regext_value regext_value_inj
              regext_value_range) as (_ & _ & _ & H & _).
  exact H.
Defined.

(** C10 as stated fails: two region identifiers that differ by [2^16]
    give one key, with the extension kind below [2^16]. *)
Lemma regextval_key_collision :
  ¬ (∀ re1 re2,
       0 <= region_id re1 < 2 ^ 32 → 0 <= region_id re2 < 2 ^ 32 →
       0 <= type re1 < 2 ^ 16 → 0 <= type re2 < 2 ^ 16 →
       regextval_key re1 = regextval_key re2 →
       region_id re1 = region_id re2 ∧ type re1 = type re2).
Proof.
  intros H.
  destruct (H (mk_its_private_data 5 0 0) (mk_its_private_data 5 65536 0))
    as [Hr _]; simpl; try lia; [reflexivity | discriminate Hr].
Qed.

Section handoff_tables.

Variable msgid_value : its_msgid → Z.
Variable addGrpC : Z.
Variable regext_value : regext_type_enum → Z.
Variable host tables : dissector_tables.

Hypothesis startup :
  proto_reg_handoff_its msgid_value addGrpC regext_value
    (proto_register_its host) = Some tables.

(** After startup a pattern of the handoff is bound to its handle. *)
Lemma startup_bound name pattern handle :
  (name, pattern, handle)
    ∈ proto_reg_handoff_its_calls msgid_value addGrpC regext_value →
  dissector_get_uint_handle tables name (guint32 pattern) = Some handle.
Proof.
  intros Hin. by apply (dissector_add_all_bound _ _ _ _ _ _ startup Hin).
Qed.

(** After startup the tables of the dissector bind nothing but the
    patterns of the handoff. *)
Lemma startup_unbound name k :
  name ∈ [its_version_subdissector_table; its_msgid_subdissector_table;
          regionid_subdissector_table] →
  k ∉ registered_patterns name
        (proto_reg_handoff_its_calls msgid_value addGrpC regext_value) →
  dissector_get_uint_handle tables name k = None.
Proof.
  intros Hname Hk. unfold proto_reg_handoff_its in startup.
  rewrite (dissector_add_all_other _ _ _ name k startup).
  - unfold dissector_get_uint_handle.
    by rewrite proto_register_its_lookup.
  - intros pattern handle Hin <-. apply Hk.
    by eapply registered_patterns_elem_of.
Qed.

End handoff_tables.

(** With the extension kinds below [2^16], two keys are equal exactly
    when the kinds are equal and the region identifiers agree on their
    low 16 bits. *)
Lemma regextval_key_low_bits re1 re2 :
  0 <= type re1 < 2 ^ 16 → 0 <= type re2 < 2 ^ 16 →
  (regextval_key re1 = regextval_key re2 ↔
   region_id re1 mod 2 ^ 16 = region_id re2 mod 2 ^ 16 ∧ type re1 = type re2).
Proof.
  intros Ht1 Ht2. rewrite !regextval_key_eq. unfold guint32.
  rewrite !Z.shiftl_mul_pow2 by lia.
  change (2 ^ 32) with 4294967296. change (2 ^ 16) with 65536 in *.
  split.
  - intros Heq. Z.to_euclidean_division_equations. lia.
  - intros [Hr ->]. Z.to_euclidean_division_equations. lia.
Qed.

(** C6, amended. After startup, an open type decoded with the region
    identifier of [addGrpC] (0 in the spec) and the extension kind
    "intersection state" is handed to the AddGrpC intersection-state
    dissector. With the same extension kind under any region identifier
    whose low 16 bits differ from those of [addGrpC], the payload is
    shown as raw data; a region identifier that agrees with [addGrpC] on
    its low 16 bits gives the key of [addGrpC] and is resolved to the
    same dissector, although nothing was registered for it. This covers
    every region identifier. *)
Theorem addGrpC_intersection_state_is_resolved
    (msgid_value : its_msgid → Z) (addGrpC : Z)
    (regext_value : regext_type_enum → Z)
    (call_dissector_work : dissector_handle_t → tvbuff_t → Z)
    (host tables : dissector_tables) (tvb : tvbuff_t) :
  proto_reg_handoff_its msgid_value addGrpC regext_value
    (proto_register_its host) = Some tables →
  (∀ t, 0 <= regext_value t < 2 ^ 16) →
  (∀ c, invoked (log (dissect_regextval_pdu call_dissector_work tables tvb
                        (mk_its_private_data
                           (regext_value Reg_IntersectionState) addGrpC c)))
        = [create_dissector_handle
             Fn.dissect_AddGrpC_IntersectionState_addGrpC_PDU proto_addgrpc])
  ∧ (∀ r c, r mod 2 ^ 16 ≠ addGrpC mod 2 ^ 16 →
       dissect_regextval_pdu call_dissector_work tables tvb
         (mk_its_private_data (regext_value Reg_IntersectionState) r c)
       = mk_dissect (tvb_captured_length tvb) [ev_call_data_dissector tvb])
  ∧ (∀ r c, r mod 2 ^ 16 = addGrpC mod 2 ^ 16 →
       invoked (log (dissect_regextval_pdu call_dissector_work tables tvb
                       (mk_its_private_data
                          (regext_value Reg_IntersectionState) r c)))
       = [create_dissector_handle
            Fn.dissect_AddGrpC_IntersectionState_addGrpC_PDU proto_addgrpc]).
Proof.
  intros Hstart Hrange.
  assert (Hbound : ∀ c,
            invoked (log (dissect_regextval_pdu call_dissector_work tables tvb
                            (mk_its_private_data
                               (regext_value Reg_IntersectionState) addGrpC c)))
            = [create_dissector_handle
                 Fn.dissect_AddGrpC_IntersectionState_addGrpC_PDU
                 proto_addgrpc]).
  { intros c. rewrite dissect_regextval_pdu_cases, regextval_key_eq. simpl.
    rewrite (startup_bound _ _ _ _ _ Hstart regionid_subdissector_table _
               (create_dissector_handle
                  Fn.dissect_AddGrpC_IntersectionState_addGrpC_PDU
                  proto_addgrpc)).
    - simpl. by destruct (call_dissector_work _ tvb =? 0).
    - apply (list_elem_of_lookup_2 _ 41%nat). reflexivity. }
  split; [exact Hbound|]. split.
  - intros r c Hne. rewrite dissect_regextval_pdu_cases.
    rewrite (startup_unbound _ _ _ _ _ Hstart); [done | by_compute |].
    rewrite regionid_registered_patterns.
    intros (t & Heq & _)%list_elem_of_fmap.
    assert (Hkey : guint32 (Z.shiftl addGrpC 16 + regext_value t)
                   = regextval_key
                       (mk_its_private_data (regext_value t) addGrpC c))
      by (by rewrite regextval_key_eq).
    rewrite Hkey in Heq.
    apply regextval_key_low_bits in Heq as [Hr _]; simpl in *; auto.
  - intros r c Hr. rewrite <- (Hbound c).
    rewrite !dissect_regextval_pdu_cases.
    assert (Hkey : regextval_key
                     (mk_its_private_data
                        (regext_value Reg_IntersectionState) r c)
                   = regextval_key
                       (mk_its_private_data
                          (regext_value Reg_IntersectionState) addGrpC c))
      by (apply regextval_key_low_bits; simpl; auto).
    by rewrite Hkey.
Qed.

Lemma sample_host_accepts :
  host_accepts_its Sample.msgid_value Sample.addGrpC Sample.regext_value
    Sample.host_tables.
Proof.
  assert (H : Forall
            (λ c, c.1.1 ∉ [its_version_subdissector_table;
                           its_msgid_subdissector_table;
                           regionid_subdissector_table] →
                  is_Some (Sample.host_tables !! c.1.1)
                  ∧ dissector_get_uint_handle Sample.host_tables c.1.1
                      (guint32 c.1.2) = None)
            (proto_reg_handoff_its_calls Sample.msgid_value Sample.addGrpC
               Sample.regext_value)) by by_compute.
  intros name pattern handle Hin.
  exact (proj1 (Forall_forall _ _) H (name, pattern, handle) Hin).
Qed.

Lemma sample_startup :
  proto_reg_handoff_its Sample.msgid_value Sample.addGrpC Sample.regext_value
    (proto_register_its Sample.host_tables) = Some Sample.tables.
Proof.
  destruct (proto_reg_handoff_its_succeeds Sample.msgid_value Sample.addGrpC
              Sample.regext_value Sample.host_tables msgid_value_inj
              msgid_value_range regext_value_inj regext_value_range
              sample_host_accepts) as [tables Htables].
  unfold Sample.tables. by rewrite Htables.
Qed.

Lemma addGrpC_intersection_state_is_resolved_witness :
  invoked (log (dissect_regextval_pdu Sample.call_dissector_work Sample.tables
                  Sample.regext_tvb (mk_its_private_data 5 0 0)))
  = [create_dissector_handle
       Fn.dissect_AddGrpC_IntersectionState_addGrpC_PDU proto_addgrpc]
  ∧ dissect_regextval_pdu Sample.call_dissector_work Sample.tables
      Sample.regext_tvb (mk_its_private_data 5 65537 0)
    = mk_dissect 3 [ev_call_data_dissector Sample.regext_tvb]
  ∧ invoked (log (dissect_regextval_pdu Sample.call_dissector_work
                    Sample.tables Sample.regext_tvb
                    (mk_its_private_data 5 65536 0)))
    = [create_dissector_handle
         Fn.dissect_AddGrpC_IntersectionState_addGrpC_PDU proto_addgrpc].
Proof.
  destruct (addGrpC_intersection_state_is_resolved
              Sample.msgid_value Sample.addGrpC Sample.regext_value
              Sample.call_dissector_work Sample.host_tables Sample.tables
              Sample.regext_tvb sample_startup regext_value_range)
    as (H1 & H2 & H3).
  split; [exact (H1 0)|]. split.
  - apply (H2 65537 0). discriminate.
  - apply (H3 65536 0). reflexivity.
Defined.

(** C6 as stated fails: nothing is registered for region 65536, and the
    payload of an "intersection state" extension under it is not shown
    as raw data (it goes to the dissector registered under region 0). *)
Lemma unregistered_region_is_not_always_raw_data :
  ¬ (∀ r c, 0 <= r < 2 ^ 32 → r ≠ Sample.addGrpC →
       dissect_regextval_pdu Sample.call_dissector_work Sample.tables
         Sample.regext_tvb
         (mk_its_private_data (Sample.regext_value Reg_IntersectionState) r c)
       = mk_dissect (tvb_captured_length Sample.regext_tvb)
           [ev_call_data_dissector Sample.regext_tvb]).
Proof.
  intros H.
  assert (H65536 : 0 <= 65536 < 2 ^ 32) by lia.
  assert (Hne : 65536 ≠ Sample.addGrpC) by discriminate.
  specialize (H 65536 0 H65536 Hne).
  apply (f_equal (λ d, invoked (log d))) in H.
  vm_compute in H. discriminate H.
Qed.

(** ** Message dispatch *)

Section dispatch_facts.

Variable dissect_header : tvbuff_t → option (ItsPduHeader * tvbuff_t).
Variable call_dissector_work : dissector_handle_t → tvbuff_t → Z.

(** The entry point on a message whose header decodes, case by case. *)
Lemma dissect_its_PDU_cases tables overrides tvb hdr payload :
  dissect_header tvb = Some (hdr, payload) →
  dissect_its_PDU dissect_header call_dissector_work tables overrides tvb
  = match effective_parser tables overrides (messageID hdr) with
    | Some parser =>
        mk_dissect (Some (call_dissector_work parser payload))
          (its_PDU_prologue tvb ++ [ev_call_dissector parser payload])
    | None =>
        mk_dissect (Some (tvb_captured_length payload))
          (its_PDU_prologue tvb ++ [ev_call_data_dissector payload])
    end.
Proof.
  intros Hhdr. unfold dissect_its_PDU, dissect_its_ItsPduHeader_PDU.
  rewrite Hhdr. by destruct (effective_parser _ _ _).
Qed.

(** The override wins; without one the static binding is in effect. *)
Lemma effective_parser_override tables overrides kind parser :
  get kind overrides = Some parser →
  effective_parser tables overrides kind = Some parser.
Proof. unfold effective_parser. by intros ->. Qed.

Lemma effective_parser_static tables overrides kind :
  get kind overrides = None →
  effective_parser tables overrides kind
  = dissector_get_uint_handle tables its_msgid_subdissector_table kind.
Proof. unfold effective_parser. by intros ->. Qed.

End dispatch_facts.

(** The handler the handoff binds to a message identifier. *)
Lemma startup_message_registry
    (msgid_value : its_msgid → Z) (addGrpC : Z)
    (regext_value : regext_type_enum → Z) (host tables : dissector_tables) :
  proto_reg_handoff_its msgid_value addGrpC regext_value
    (proto_register_its host) = Some tables →
  (∀ m, 0 <= msgid_value m < 2 ^ 32) →
  ∀ m, dissector_get_uint_handle tables its_msgid_subdissector_table
         (msgid_value m)
       = Some match m with
              | ITS_DENM =>
                  create_dissector_handle
                    Fn.dissect_denm_DecentralizedEnvironmentalNotificationMessage_PDU
                    proto_its_denm
              | ITS_CAM =>
                  create_dissector_handle Fn.dissect_cam_CoopAwareness_PDU
                    proto_its_cam
              | ITS_SPATEM =>
                  create_dissector_handle Fn.dissect_dsrc_SPAT_PDU
                    proto_its_spatem
              | ITS_MAPEM =>
                  create_dissector_handle Fn.dissect_dsrc_MapData_PDU
                    proto_its_mapem
              | ITS_IVIM =>
                  create_dissector_handle Fn.dissect_ivi_IviStructure_PDU
                    proto_its_ivim
              | ITS_EV_RSR =>
                  create_dissector_handle
                    Fn.dissect_evrsr_EV_RSR_MessageBody_PDU proto_its_evrsr
              | ITS_SREM =>
                  create_dissector_handle
                    Fn.dissect_dsrc_SignalRequestMessage_PDU proto_its_srem
              | ITS_SSEM =>
                  create_dissector_handle
                    Fn.dissect_dsrc_SignalStatusMessage_PDU proto_its_ssem
              | ITS_EVCSN =>
                  create_dissector_handle
                    Fn.dissect_evcsn_EVChargingSpotNotificationPOIMessage_PDU
                    proto_its_evcsn
              | ITS_TISTPGTRANSACTION =>
                  create_dissector_handle
                    Fn.dissect_tistpg_TisTpgTransaction_PDU proto_its_tistpg
              end.
Proof.
  intros Hstart Hrange m.
  rewrite <- (guint32_small (msgid_value m)) by done.
  apply (startup_bound _ _ _ _ _ Hstart).
  destruct m;
    [ apply (list_elem_of_lookup_2 _ 28%nat) | apply (list_elem_of_lookup_2 _ 29%nat)
    | apply (list_elem_of_lookup_2 _ 30%nat) | apply (list_elem_of_lookup_2 _ 31%nat)
    | apply (list_elem_of_lookup_2 _ 32%nat) | apply (list_elem_of_lookup_2 _ 33%nat)
    | apply (list_elem_of_lookup_2 _ 34%nat) | apply (list_elem_of_lookup_2 _ 35%nat)
    | apply (list_elem_of_lookup_2 _ 36%nat) | apply (list_elem_of_lookup_2 _ 37%nat) ];
    reflexivity.
Qed.

(** C1. On a message whose header decodes to a kind the Message
    Registry binds, the dispatch invokes one parser and no other: the
    one of the Decode-As override when the kind has one, the statically
    registered one otherwise; nothing is shown as raw data. *)
Theorem dispatch_invokes_the_bound_parser
    (dissect_header : tvbuff_t → option (ItsPduHeader * tvbuff_t))
    (call_dissector_work : dissector_handle_t → tvbuff_t → Z)
    (tables : dissector_tables) (overrides : gmap Z dissector_handle_t)
    (tvb payload : tvbuff_t) (hdr : ItsPduHeader)
    (parser : dissector_handle_t) :
  dissect_header tvb = Some (hdr, payload) →
  dissector_get_uint_handle tables its_msgid_subdissector_table (messageID hdr)
  = Some parser →
  let run :=
    dissect_its_PDU dissect_header call_dissector_work tables overrides tvb in
  invoked (log run)
  = [match get (messageID hdr) overrides with
     | Some chosen => chosen
     | None => parser
     end]
  ∧ (get (messageID hdr) overrides = None →
     run = mk_dissect (Some (call_dissector_work parser payload))
             (its_PDU_prologue tvb ++ [ev_call_dissector parser payload]))
  ∧ (∀ chosen, get (messageID hdr) overrides = Some chosen →
     run = mk_dissect (Some (call_dissector_work chosen payload))
             (its_PDU_prologue tvb ++ [ev_call_dissector chosen payload]))
  ∧ shown_as_data (log run) = [].
Proof.
  intros Hhdr Hreg run. unfold run.
  rewrite (dissect_its_PDU_cases _ _ _ _ _ _ _ Hhdr).
  destruct (get (messageID hdr) overrides) as [chosen|] eqn:Hov.
  - rewrite (effective_parser_override _ _ _ _ Hov).
    split_and!; [done | done | by intros ? [= <-] | done].
  - rewrite (effective_parser_static _ _ _ Hov), Hreg.
    split_and!; [done | done | done | done].
Qed.

(** C5. On a message whose header decodes to a kind that has neither a
    static registration nor an override, the dispatch shows the bytes
    after the header as raw data, invokes no parser, and returns. *)
Theorem unregistered_kind_is_raw_data
    (dissect_header : tvbuff_t → option (ItsPduHeader * tvbuff_t))
    (call_dissector_work : dissector_handle_t → tvbuff_t → Z)
    (tables : dissector_tables) (overrides : gmap Z dissector_handle_t)
    (tvb payload : tvbuff_t) (hdr : ItsPduHeader) :
  dissect_header tvb = Some (hdr, payload) →
  dissector_get_uint_handle tables its_msgid_subdissector_table (messageID hdr)
  = None →
  get (messageID hdr) overrides = None →
  dissect_its_PDU dissect_header call_dissector_work tables overrides tvb
  = mk_dissect (Some (tvb_captured_length payload))
      (its_PDU_prologue tvb ++ [ev_call_data_dissector payload]).
Proof.
  intros Hhdr Hreg Hov.
  rewrite (dissect_its_PDU_cases _ _ _ _ _ _ _ Hhdr).
  by rewrite (effective_parser_static _ _ _ Hov), Hreg.
Qed.

(** ** Decode-As overrides *)

Lemma setOverride_idemp kind parser (overrides : gmap Z dissector_handle_t) :
  setOverride kind parser (setOverride kind parser overrides)
  = setOverride kind parser overrides.
Proof. unfold setOverride. apply insert_insert_eq. Qed.

Lemma get_setOverride kind parser (overrides : gmap Z dissector_handle_t) :
  get kind (setOverride kind parser overrides) = Some parser.
Proof. unfold get, setOverride. apply lookup_insert_eq. Qed.

Lemma get_clearOverride kind (overrides : gmap Z dissector_handle_t) :
  get kind (clearOverride kind overrides) = None.
Proof. unfold get, clearOverride. apply lookup_delete_eq. Qed.

Lemma get_clearOverride_ne kind k (overrides : gmap Z dissector_handle_t) :
  k ≠ kind → get k (clearOverride kind overrides) = get k overrides.
Proof. intros Hne. unfold get, clearOverride. by apply lookup_delete_ne. Qed.

Lemma get_setOverride_ne kind k parser (overrides : gmap Z dissector_handle_t) :
  k ≠ kind → get k (setOverride kind parser overrides) = get k overrides.
Proof. intros Hne. unfold get, setOverride. by apply lookup_insert_ne. Qed.

Lemma clearOverride_setOverride kind parser
    (overrides : gmap Z dissector_handle_t) :
  get kind overrides = None →
  clearOverride kind (setOverride kind parser overrides) = overrides.
Proof.
  unfold get, clearOverride, setOverride. intros Hnone.
  rewrite delete_insert_eq. by apply delete_id.
Qed.

(** C7. Setting the same override twice is the same as setting it once,
    so the parser in effect is unchanged for every kind; while the
    override is set the dispatch invokes its parser; clearing it puts
    the statically registered parser of the kind back in effect, and the
    dispatch of the same message invokes that parser again; the other
    kinds are as they were. *)
Theorem setOverride_idempotent_clearOverride_restores
    (dissect_header : tvbuff_t → option (ItsPduHeader * tvbuff_t))
    (call_dissector_work : dissector_handle_t → tvbuff_t → Z)
    (tables : dissector_tables) (overrides : gmap Z dissector_handle_t)
    (tvb payload : tvbuff_t) (hdr : ItsPduHeader)
    (registered parser : dissector_handle_t) :
  dissect_header tvb = Some (hdr, payload) →
  dissector_get_uint_handle tables its_msgid_subdissector_table (messageID hdr)
  = Some registered →
  let kind := messageID hdr in
  let dispatch := dissect_its_PDU dissect_header call_dissector_work tables in
  setOverride kind parser (setOverride kind parser overrides)
  = setOverride kind parser overrides
  ∧ (∀ k, effective_parser tables
            (setOverride kind parser (setOverride kind parser overrides)) k
          = effective_parser tables (setOverride kind parser overrides) k)
  ∧ invoked (log (dispatch (setOverride kind parser overrides) tvb)) = [parser]
  ∧ effective_parser tables
      (clearOverride kind (setOverride kind parser overrides)) kind
    = Some registered
  ∧ invoked (log (dispatch
                    (clearOverride kind (setOverride kind parser overrides))
                    tvb))
    = [registered]
  ∧ (∀ k, k ≠ kind →
       effective_parser tables
         (clearOverride kind (setOverride kind parser overrides)) k
       = effective_parser tables overrides k)
  ∧ (get kind overrides = None →
     clearOverride kind (setOverride kind parser overrides) = overrides).
Proof.
  intros Hhdr Hreg kind dispatch. unfold dispatch, kind. split_and!.
  - apply setOverride_idemp.
  - intros k. by rewrite setOverride_idemp.
  - rewrite (dissect_its_PDU_cases _ _ _ _ _ _ _ Hhdr).
    by rewrite (effective_parser_override _ _ _ _ (get_setOverride _ _ _)).
  - by rewrite (effective_parser_static _ _ _ (get_clearOverride _ _)).
  - rewrite (dissect_its_PDU_cases _ _ _ _ _ _ _ Hhdr).
    by rewrite (effective_parser_static _ _ _ (get_clearOverride _ _)), Hreg.
  - intros k Hne. unfold effective_parser.
    by rewrite get_clearOverride_ne, get_setOverride_ne.
  - apply clearOverride_setOverride.
Qed.

(** The handles of the scenarios. *)
Lemma sample_registry_denm :
  dissector_get_uint_handle Sample.tables its_msgid_subdissector_table 1
  = Some (create_dissector_handle
            Fn.dissect_denm_DecentralizedEnvironmentalNotificationMessage_PDU
            proto_its_denm).
Proof.
  exact (startup_message_registry _ _ _ _ _ sample_startup msgid_value_range
           ITS_DENM).
Qed.

Lemma sample_registry_unknown :
  dissector_get_uint_handle Sample.tables its_msgid_subdissector_table 200
  = None.
Proof.
  apply (startup_unbound _ _ _ _ _ sample_startup); by_compute.
Qed.

Lemma dispatch_invokes_the_bound_parser_witness :
  invoked (log (dissect_its_PDU Sample.dissect_header
                  Sample.call_dissector_work Sample.tables ∅
                  Sample.denm_tvb))
  = [create_dissector_handle
       Fn.dissect_denm_DecentralizedEnvironmentalNotificationMessage_PDU
       proto_its_denm]
  ∧ invoked (log (dissect_its_PDU Sample.dissect_header
                    Sample.call_dissector_work Sample.tables
                    (setOverride 1
                       (create_dissector_handle Fn.dissect_cam_CoopAwareness_PDU
                          proto_its_cam) ∅)
                    Sample.denm_tvb))
    = [create_dissector_handle Fn.dissect_cam_CoopAwareness_PDU proto_its_cam].
Proof.
  split.
  - exact (proj1 (dispatch_invokes_the_bound_parser Sample.dissect_header
                    Sample.call_dissector_work Sample.tables ∅
                    Sample.denm_tvb _ _ _ eq_refl sample_registry_denm)).
  - exact (proj1 (dispatch_invokes_the_bound_parser Sample.dissect_header
                    Sample.call_dissector_work Sample.tables
                    (setOverride 1
                       (create_dissector_handle Fn.dissect_cam_CoopAwareness_PDU
                          proto_its_cam) ∅)
                    Sample.denm_tvb _ _ _ eq_refl sample_registry_denm)).
Defined.

Lemma unregistered_kind_is_raw_data_witness :
  dissect_its_PDU Sample.dissect_header Sample.call_dissector_work
    Sample.tables ∅ Sample.unknown_tvb
  = mk_dissect (Some 3)
      (its_PDU_prologue Sample.unknown_tvb
       ++ [ev_call_data_dissector
             (mk_tvbuff [Byte.xaa; Byte.xbb; Byte.xcc] 3)]).
Proof.
  exact (unregistered_kind_is_raw_data Sample.dissect_header
           Sample.call_dissector_work Sample.tables ∅ Sample.unknown_tvb
           _ _ eq_refl sample_registry_unknown eq_refl).
Defined.

(** The scenario of the spec: kind 1 is registered with the DENM
    dissector; it is overridden by the CAM dissector, then the override
    is cleared. *)
Lemma setOverride_idempotent_clearOverride_restores_witness :
  let P1 := create_dissector_handle
              Fn.dissect_denm_DecentralizedEnvironmentalNotificationMessage_PDU
              proto_its_denm in
  let P2 := create_dissector_handle Fn.dissect_cam_CoopAwareness_PDU
              proto_its_cam in
  let dispatch := dissect_its_PDU Sample.dissect_header
                    Sample.call_dissector_work Sample.tables in
  invoked (log (dispatch ∅ Sample.denm_tvb)) = [P1]
  ∧ invoked (log (dispatch (setOverride 1 P2 ∅) Sample.denm_tvb)) = [P2]
  ∧ invoked (log (dispatch (clearOverride 1 (setOverride 1 P2 ∅))
                    Sample.denm_tvb)) = [P1].
Proof.
  intros P1 P2 dispatch.
  destruct (setOverride_idempotent_clearOverride_restores
              Sample.dissect_header Sample.call_dissector_work Sample.tables ∅
              Sample.denm_tvb _ _ P1 P2 eq_refl sample_registry_denm)
    as (_ & _ & Hset & _ & Hclear & _ & Hid).
  split_and!.
  - simpl in Hid, Hclear. rewrite (Hid eq_refl) in Hclear. exact Hclear.
  - exact Hset.
  - exact Hclear.
Defined.

(** ** The definitions at work on the concrete configuration *)

Example find_subcause_dangerousSituation :
  find_subcause_from_cause Sample.cause_value 99
  = Some hf_its_dangerousSituationSubCauseCode.
Proof. reflexivity. Qed.

Example find_subcause_unassigned_value :
  find_subcause_from_cause Sample.cause_value 4 = Some hf_its_subCauseCode.
Proof. reflexivity. Qed.

Example find_subcause_reserved :
  find_subcause_from_cause Sample.cause_value (Sample.cause_value reserved)
  = Some hf_its_subCauseCode.
Proof. reflexivity. Qed.

Example find_subcause_loop_stops_at_roadworks :
  find_subcause_loop Sample.cause_value cause_to_subcause
    (length cause_to_subcause) 3 0 = Some 2%nat.
Proof. reflexivity. Qed.

Example find_subcause_loop_stops_at_last_row :
  find_subcause_loop Sample.cause_value cause_to_subcause
    (length cause_to_subcause) 200 0 = Some 24%nat.
Proof. reflexivity. Qed.

Example regextval_key_region_3 :
  regextval_key (mk_its_private_data 5 3 0) = 196613.
Proof. reflexivity. Qed.

Example regextval_key_wraps :
  regextval_key (mk_its_private_data 5 65536 0) = 5.
Proof. reflexivity. Qed.

(** A handler that rejects the payload: the payload is shown as raw
    data after it, and all of it counts as consumed. *)
Example dissect_regextval_pdu_rejected :
  dissect_regextval_pdu Sample.reject_all Sample.tables Sample.regext_tvb
    (mk_its_private_data 5 0 0)
  = mk_dissect 3
      [ev_call_dissector
         (create_dissector_handle
            Fn.dissect_AddGrpC_IntersectionState_addGrpC_PDU proto_addgrpc)
         Sample.regext_tvb;
       ev_call_data_dissector Sample.regext_tvb].
Proof. vm_compute. reflexivity. Qed.

(** A numbering that gives two message identifiers one value makes the
    handoff register a pattern twice: startup fails. *)
Example proto_reg_handoff_its_duplicate :
  proto_reg_handoff_its (λ _, 1) Sample.addGrpC Sample.regext_value
    (proto_register_its Sample.host_tables) = None.
Proof. vm_compute. reflexivity. Qed.

(** A buffer too short for the header: a decode fault, after the
    prologue. *)
Example dissect_its_PDU_short :
  dissect_its_PDU Sample.dissect_header Sample.call_dissector_work
    Sample.tables ∅ (mk_tvbuff [Byte.x01; Byte.x01] 2)
  = mk_dissect None (its_PDU_prologue (mk_tvbuff [Byte.x01; Byte.x01] 2)).
Proof. reflexivity. Qed.

(** * Further properties of the code *)

(** ** The lookup loop and the two sub-cause tables *)

Lemma loop_cond_true (enum_value : CauseCodeType_enum → Z) c e :
  loop_cond enum_value c e = true ↔ is_Some (hf e) ∧ enum_value (cause e) ≠ c.
Proof.
  rewrite <- not_false_iff_true, loop_cond_false.
  destruct (hf e) as [h|]; split.
  - intros Hn. split; [eauto|]. intros Heq. apply Hn. by right.
  - intros [_ Hne] [?|?]; done.
  - intros Hn. destruct Hn. by left.
  - intros [[? ?] _]. done.
Qed.

Lemma list_find_ext_Forall {A} (P Q : A → Prop)
    `{!∀ x, Decision (P x)} `{!∀ x, Decision (Q x)} (l : list A) :
  Forall (λ x, P x ↔ Q x) l → list_find P l = list_find Q l.
Proof.
  induction 1 as [|x l HPQ _ IH]; simpl; [done|].
  by rewrite (decide_ext (P x) (Q x)), IH by done.
Qed.

Lemma cause_to_subcause_split :
  cause_to_subcause = known_rows ++ [mk_cause_to_subcause reserved None].
Proof. reflexivity. Qed.

Lemma known_rows_have_field : Forall (λ e, is_Some (hf e)) known_rows.
Proof. by_compute. Qed.

(** X1. The loop of [find_subcause_from_cause], run on any table with
    any numbering: it stops at an index exactly when that is the first
    row without a field or with the wanted cause, and it leaves the
    table (reads behind its last row) exactly when every row has a field
    and another cause. A row without a field is what keeps the loop
    inside the table for every cause. *)
Theorem find_subcause_loop_stops_at_first_end_row
    (enum_value : CauseCodeType_enum → Z) (tbl : list cause_to_subcause_t)
    (c : Z) :
  (∀ idx,
     find_subcause_loop enum_value tbl (length tbl) c 0 = Some idx ↔
     (∃ e, tbl !! idx = Some e ∧ (hf e = None ∨ enum_value (cause e) = c))
     ∧ (∀ j e, tbl !! j = Some e → (j < idx)%nat →
          is_Some (hf e) ∧ enum_value (cause e) ≠ c))
  ∧ (find_subcause_loop enum_value tbl (length tbl) c 0 = None ↔
     ∀ e, e ∈ tbl → is_Some (hf e) ∧ enum_value (cause e) ≠ c).
Proof.
  rewrite find_subcause_loop_list_find by lia. rewrite drop_0. split.
  - intros idx. rewrite fmap_Some. split.
    + intros ([i e] & (Hi & Hstop & Hfirst)%list_find_Some & ->). simpl. split.
      * exists e. split; [done|]. by apply loop_cond_false.
      * intros j e' Hj Hlt. apply loop_cond_true.
        apply not_false_iff_true. by eapply Hfirst.
    + intros [(e & Hi & Hstop) Hfirst]. exists (idx, e). split; [|done].
      apply list_find_Some. split_and!; [done | by apply loop_cond_false |].
      intros j e' Hj Hlt. apply not_false_iff_true, loop_cond_true.
      by eapply Hfirst.
  - rewrite fmap_None, list_find_None, Forall_forall.
    split; intros H e He.
    + apply loop_cond_true, not_false_iff_true. by apply H.
    + apply not_false_iff_true, loop_cond_true. by apply H.
Qed.

(** X2. Whatever integers the enumerators stand for, the lookup returns
    the field of the first row of the table whose enumerator has the
    wanted value, and the generic field when no row with a field has it:
    should two enumerators share a value, the earlier row decides. *)
Theorem find_subcause_from_cause_first_row
    (enum_value : CauseCodeType_enum → Z) (c : Z) :
  find_subcause_from_cause enum_value c
  = Some match list_find (λ e, enum_value (cause e) = c) known_rows with
         | Some (_, e) => default hf_its_subCauseCode (hf e)
         | None => hf_its_subCauseCode
         end.
Proof.
  rewrite find_subcause_from_cause_list_find, cause_to_subcause_split.
  assert (Hext : list_find (λ e, loop_cond enum_value c e = false) known_rows
                 = list_find (λ e, enum_value (cause e) = c) known_rows).
  { apply list_find_ext_Forall.
    eapply Forall_impl; [apply known_rows_have_field|].
    intros e [h Hh]. rewrite loop_cond_false, Hh.
    split; [by intros [?|?] | by right]. }
  destruct (list_find (λ e, enum_value (cause e) = c) known_rows)
    as [[i e]|] eqn:Hfind.
  - by rewrite (list_find_app_l _ _ _ _ _ Hext).
  - by rewrite (list_find_app_r _ _ _ Hext).
Qed.

(** How a field is registered in [hf_its]: by exactly one row, under the
    filter name of the sub-cause code, as a decimal 32-bit number. *)
Lemma table_fields_registered :
  Forall (λ e, ∀ h, hf e = Some h →
            ∃ r, filter (λ r, p_id r = h) hf_its = [r]
                 ∧ hfinfo_abbrev r = "its.subCauseCode"
                 ∧ hfinfo_type r = FT_UINT32
                 ∧ hfinfo_display r = BASE_DEC
                 ∧ hfinfo_bitmask r = 0
                 ∧ hfinfo_blurb r = "SubCauseCodeType")
    cause_to_subcause.
Proof.
  unfold cause_to_subcause.
  repeat (apply Forall_cons; split;
          [ intros h [= <-]; eexists; split; [reflexivity|]; done | ]).
  apply Forall_cons. split; [intros h Hh; discriminate Hh | apply Forall_nil_2].
Qed.

(** X3. For every numbering and every integer, the lookup returns a
    field, and the field is the generic one or one the template
    registers in [hf_its]: by exactly one row, under the filter name
    [its.subCauseCode], as a decimal [FT_UINT32] without bit mask. No
    cause code makes the dissector show a field it did not register. *)
Theorem find_subcause_from_cause_returns_registered_field
    (enum_value : CauseCodeType_enum → Z) (c : Z) :
  ∃ h, find_subcause_from_cause enum_value c = Some h
       ∧ (h = hf_its_subCauseCode
          ∨ ∃ r, filter (λ r, p_id r = h) hf_its = [r]
                 ∧ hfinfo_abbrev r = "its.subCauseCode"
                 ∧ hfinfo_type r = FT_UINT32
                 ∧ hfinfo_display r = BASE_DEC
                 ∧ hfinfo_bitmask r = 0
                 ∧ hfinfo_blurb r = "SubCauseCodeType").
Proof.
  rewrite find_subcause_from_cause_list_find.
  destruct (find_subcause_from_cause_total enum_value c) as [h Hh].
  rewrite find_subcause_from_cause_list_find in Hh.
  destruct (list_find _ cause_to_subcause) as [[i e]|] eqn:Hfind; [|done].
  simpl. eexists. split; [reflexivity|].
  apply list_find_Some in Hfind as (Hi & _ & _).
  destruct (hf e) as [h'|] eqn:Hhf; simpl; [right | by left].
  apply list_elem_of_lookup_2 in Hi.
  by apply (proj1 (Forall_forall _ _) table_fields_registered e Hi).
Qed.

(** Every field variable but the generic one is the field of a row. *)
Lemma declared_fields_used h :
  h ≠ hf_its_subCauseCode →
  Exists (λ k, field_of_cause k = Some h) known_causes.
Proof. intros Hh. destruct h; [done | by_compute..]. Qed.

(** X4. With the enumerators numbered apart, each of the 24 sub-cause
    field variables the template declares (every field but the generic
    [hf_its_subCauseCode], which the generated code declares) is the
    result of the lookup for exactly one enumerator: no declared field
    is left unused by the lookup, and none is shared by two causes. *)
Theorem every_declared_field_has_its_cause
    (enum_value : CauseCodeType_enum → Z) (h : hf_index) :
  Inj (=) (=) enum_value → h ≠ hf_its_subCauseCode →
  ∃ k, find_subcause_from_cause enum_value (enum_value k) = Some h
       ∧ ∀ k', find_subcause_from_cause enum_value (enum_value k') = Some h →
               k' = k.
Proof.
  intros Hinj Hgen.
  destruct (proj1 (Exists_exists _ _) (declared_fields_used h Hgen))
    as (k & Hk & Hfield).
  exists k. split.
  - by rewrite find_subcause_from_cause_known.
  - intros k' Hk'.
    destruct (find_subcause_from_cause_specific _ _ _ Hk' Hgen)
      as (k'' & Hknown & Heq).
    apply Hinj in Heq as <-.
    rewrite find_subcause_from_cause_known in Hk' by done.
    apply field_of_cause_inj; [done | congruence].
Qed.

Lemma every_declared_field_has_its_cause_witness :
  Inj (=) (=) Sample.cause_value
  ∧ hf_its_roadworksSubCauseCode ≠ hf_its_subCauseCode
  ∧ ∃ k, find_subcause_from_cause Sample.cause_value (Sample.cause_value k)
         = Some hf_its_roadworksSubCauseCode.
Proof.
  assert (Hne : hf_its_roadworksSubCauseCode ≠ hf_its_subCauseCode)
    by discriminate.
  split; [exact cause_value_inj|]. split; [exact Hne|].
  destruct (every_declared_field_has_its_cause Sample.cause_value _
              cause_value_inj Hne) as (k & Hk & _).
  exists k. exact Hk.
Defined.

(** ** The regional-extension resolver and its key *)

(** X5. What the resolver does with the payload: it is shown as raw data
    exactly when no handler is bound under the key or the bound handler
    returns 0, and not at all when the bound handler returns anything
    else; a bound handler always sees it first. The payload is never
    dropped, never shown twice, and every event is about the payload
    buffer itself. *)
Theorem dissect_regextval_pdu_raw_data_iff
    (call_dissector_work : dissector_handle_t → tvbuff_t → Z)
    (tables : dissector_tables) (tvb : tvbuff_t) (re : its_private_data_t) :
  let run := dissect_regextval_pdu call_dissector_work tables tvb re in
  let bound := dissector_get_uint_handle tables regionid_subdissector_table
                 (regextval_key re) in
  (shown_as_data (log run) = [tvb] ↔
     bound = None ∨ ∃ h, bound = Some h ∧ call_dissector_work h tvb = 0)
  ∧ (shown_as_data (log run) = [] ↔
     ∃ h, bound = Some h ∧ call_dissector_work h tvb ≠ 0)
  ∧ (∀ h, bound = Some h →
       ∃ rest, log run = ev_call_dissector h tvb :: rest ∧ invoked rest = [])
  ∧ (invoked (log run) ≠ [] ∨ shown_as_data (log run) ≠ [])
  ∧ (∀ e, e ∈ log run →
       (∃ h, e = ev_call_dissector h tvb) ∨ e = ev_call_data_dissector tvb).
Proof.
  intros run bound. unfold run, bound.
  rewrite dissect_regextval_pdu_cases.
  destruct (dissector_get_uint_handle _ _ _) as [h|]; simpl.
  - destruct (call_dissector_work h tvb =? 0) eqn:Hret; simpl.
    + apply Z.eqb_eq in Hret. split_and!.
      * split; [eauto | done].
      * split; [done | by intros (? & [= <-] & ?)].
      * intros ? [= <-]. eauto.
      * by left.
      * intros e [->|[->|[]%elem_of_nil]%elem_of_cons]%elem_of_cons; eauto.
    + apply Z.eqb_neq in Hret. split_and!.
      * split; [done | by intros [|(? & [= <-] & ?)]].
      * split; [eauto | done].
      * intros ? [= <-]. eauto.
      * by left.
      * intros e [->|[]%elem_of_nil]%elem_of_cons; eauto.
  - split_and!.
    + split; [eauto | done].
    + split; [done | by intros (? & ? & _)].
    + done.
    + by right.
    + intros e [->|[]%elem_of_nil]%elem_of_cons; eauto.
Qed.

(** X6. Below [2^16] on both sides the key is a pair: its upper 16 bits
    are the region identifier and its lower 16 bits the extension kind,
    so both can be read back from the key. *)
Theorem regextval_key_decodes (re : its_private_data_t) :
  0 <= region_id re < 2 ^ 16 → 0 <= type re < 2 ^ 16 →
  Z.shiftr (regextval_key re) 16 = region_id re
  ∧ Z.land (regextval_key re) (Z.ones 16) = type re.
Proof.
  intros Hr Ht. rewrite regextval_key_small by done. split.
  - rewrite Z.shiftr_div_pow2 by lia.
    rewrite Z.div_add_l by lia. rewrite Z.div_small by lia. lia.
  - rewrite Z.land_ones by lia.
    rewrite Z.add_comm, Z.mod_add by lia. by apply Z.mod_small.
Qed.

Lemma regextval_key_decodes_witness :
  Z.shiftr (regextval_key (mk_its_private_data 5 3 0)) 16 = 3
  ∧ Z.land (regextval_key (mk_its_private_data 5 3 0)) (Z.ones 16) = 5.
Proof.
  apply (regextval_key_decodes (mk_its_private_data 5 3 0)); simpl; lia.
Defined.

(** X7. The key is a 32-bit value for every content of the private data,
    and only the low 16 bits of the region identifier reach it: a region
    identifier that differs by a multiple of [2^16] gives the same key,
    so the resolver treats it alike; an extension kind increased by
    [2^16] gives the key of the next region. *)
Theorem regextval_key_keeps_low_region_bits
    (re : its_private_data_t) (k : Z) :
  0 <= regextval_key re < 2 ^ 32
  ∧ regextval_key
      (mk_its_private_data (type re) (region_id re + k * 2 ^ 16) (cause_code re))
    = regextval_key re
  ∧ regextval_key
      (mk_its_private_data (type re + 2 ^ 16) (region_id re) (cause_code re))
    = regextval_key
        (mk_its_private_data (type re) (region_id re + 1) (cause_code re))
  ∧ (∀ call_dissector_work tables tvb,
       dissect_regextval_pdu call_dissector_work tables tvb
         (mk_its_private_data (type re) (region_id re + k * 2 ^ 16)
            (cause_code re))
       = dissect_regextval_pdu call_dissector_work tables tvb re).
Proof.
  assert (Hwrap : regextval_key
                    (mk_its_private_data (type re) (region_id re + k * 2 ^ 16)
                       (cause_code re))
                  = regextval_key re).
  { rewrite !regextval_key_eq. simpl. unfold guint32.
    rewrite !Z.shiftl_mul_pow2 by lia.
    replace ((region_id re + k * 2 ^ 16) * 2 ^ 16 + type re)
      with (region_id re * 2 ^ 16 + type re + k * 2 ^ 32) by lia.
    by rewrite Z.mod_add by lia. }
  split; [|split; [|split]].
  - rewrite regextval_key_eq. apply guint32_range.
  - exact Hwrap.
  - rewrite !regextval_key_eq. simpl. rewrite !Z.shiftl_mul_pow2 by lia.
    f_equal. lia.
  - intros work tables tvb. by rewrite !dissect_regextval_pdu_cases, Hwrap.
Qed.

(** ** Startup: what the two registration routines leave in the tables *)

Lemma dissector_add_uint_dom name pattern handle
    (tables tables' : dissector_tables) :
  dissector_add_uint name pattern handle tables = Some tables' →
  dom tables' = dom tables.
Proof.
  intros (sub & Hsub & _ & ->)%dissector_add_uint_Some.
  rewrite dom_insert_L. apply elem_of_dom_2 in Hsub.
  apply set_eq. intros x. rewrite elem_of_union, elem_of_singleton.
  split; [by intros [->|?] | by right].
Qed.

Lemma dissector_add_all_dom calls (tables tables' : dissector_tables) :
  dissector_add_all calls tables = Some tables' → dom tables' = dom tables.
Proof.
  revert tables. induction calls as [|[[n p] h0] calls IH]; intros tables; simpl.
  - by intros [= <-].
  - destruct (dissector_add_uint n p h0 tables) as [tables1|] eqn:Hadd;
      simpl; [|done].
    intros Hall. rewrite (IH _ Hall). by eapply dissector_add_uint_dom.
Qed.

(** A table no registration of the row names is left as it was. *)
Lemma dissector_add_all_table_other calls (tables tables' : dissector_tables)
    name :
  dissector_add_all calls tables = Some tables' →
  (∀ c, c ∈ calls → c.1.1 ≠ name) →
  tables' !! name = tables !! name.
Proof.
  revert tables. induction calls as [|[[n p] h0] calls IH]; intros tables; simpl.
  - by intros [= <-].
  - destruct (dissector_add_uint n p h0 tables) as [tables1|] eqn:Hadd;
      simpl; [|done].
    intros Hall Hname. rewrite (IH _ Hall).
    + apply dissector_add_uint_Some in Hadd as (sub & _ & _ & ->).
      apply lookup_insert_ne. apply (Hname (n, p, h0)). by left.
    + intros c Hc. apply Hname. by right.
Qed.

Section startup_facts.

Variable msgid_value : its_msgid → Z.
Variable addGrpC : Z.
Variable regext_value : regext_type_enum → Z.
Variable host tables : dissector_tables.

Hypothesis startup :
  proto_reg_handoff_its msgid_value addGrpC regext_value
    (proto_register_its host) = Some tables.

(** A pattern the handoff does not register is bound as the registration
    of the tables left it. *)
Lemma startup_frame name k :
  k ∉ registered_patterns name
        (proto_reg_handoff_its_calls msgid_value addGrpC regext_value) →
  dissector_get_uint_handle tables name k
  = dissector_get_uint_handle (proto_register_its host) name k.
Proof.
  intros Hk. unfold proto_reg_handoff_its in startup.
  apply (dissector_add_all_other _ _ _ name k startup).
  intros pattern handle Hin <-. apply Hk.
  by eapply registered_patterns_elem_of.
Qed.

Lemma startup_frame_host name k :
  name ∉ [its_version_subdissector_table; its_msgid_subdissector_table;
          regionid_subdissector_table] →
  k ∉ registered_patterns name
        (proto_reg_handoff_its_calls msgid_value addGrpC regext_value) →
  dissector_get_uint_handle tables name k
  = dissector_get_uint_handle host name k.
Proof.
  intros Hname Hk. rewrite startup_frame by done.
  unfold dissector_get_uint_handle.
  by rewrite proto_register_its_lookup_other.
Qed.

End startup_facts.

(** Membership in the row of registrations, by position. *)
Ltac find_call :=
  first
    [ apply (list_elem_of_lookup_2 _ 0%nat); reflexivity
    | apply (list_elem_of_lookup_2 _ 1%nat); reflexivity
    | apply (list_elem_of_lookup_2 _ 2%nat); reflexivity
    | apply (list_elem_of_lookup_2 _ 3%nat); reflexivity
    | apply (list_elem_of_lookup_2 _ 4%nat); reflexivity
    | apply (list_elem_of_lookup_2 _ 5%nat); reflexivity
    | apply (list_elem_of_lookup_2 _ 6%nat); reflexivity
    | apply (list_elem_of_lookup_2 _ 7%nat); reflexivity
    | apply (list_elem_of_lookup_2 _ 8%nat); reflexivity
    | apply (list_elem_of_lookup_2 _ 9%nat); reflexivity
    | apply (list_elem_of_lookup_2 _ 10%nat); reflexivity
    | apply (list_elem_of_lookup_2 _ 11%nat); reflexivity
    | apply (list_elem_of_lookup_2 _ 12%nat); reflexivity
    | apply (list_elem_of_lookup_2 _ 13%nat); reflexivity
    | apply (list_elem_of_lookup_2 _ 14%nat); reflexivity
    | apply (list_elem_of_lookup_2 _ 15%nat); reflexivity
    | apply (list_elem_of_lookup_2 _ 16%nat); reflexivity
    | apply (list_elem_of_lookup_2 _ 17%nat); reflexivity
    | apply (list_elem_of_lookup_2 _ 18%nat); reflexivity
    | apply (list_elem_of_lookup_2 _ 19%nat); reflexivity
    | apply (list_elem_of_lookup_2 _ 20%nat); reflexivity
    | apply (list_elem_of_lookup_2 _ 21%nat); reflexivity
    | apply (list_elem_of_lookup_2 _ 22%nat); reflexivity
    | apply (list_elem_of_lookup_2 _ 23%nat); reflexivity
    | apply (list_elem_of_lookup_2 _ 24%nat); reflexivity
    | apply (list_elem_of_lookup_2 _ 25%nat); reflexivity
    | apply (list_elem_of_lookup_2 _ 26%nat); reflexivity
    | apply (list_elem_of_lookup_2 _ 27%nat); reflexivity
    | apply (list_elem_of_lookup_2 _ 28%nat); reflexivity
    | apply (list_elem_of_lookup_2 _ 29%nat); reflexivity
    | apply (list_elem_of_lookup_2 _ 30%nat); reflexivity
    | apply (list_elem_of_lookup_2 _ 31%nat); reflexivity
    | apply (list_elem_of_lookup_2 _ 32%nat); reflexivity
    | apply (list_elem_of_lookup_2 _ 33%nat); reflexivity
    | apply (list_elem_of_lookup_2 _ 34%nat); reflexivity
    | apply (list_elem_of_lookup_2 _ 35%nat); reflexivity
    | apply (list_elem_of_lookup_2 _ 36%nat); reflexivity
    | apply (list_elem_of_lookup_2 _ 37%nat); reflexivity
    | apply (list_elem_of_lookup_2 _ 38%nat); reflexivity
    | apply (list_elem_of_lookup_2 _ 39%nat); reflexivity
    | apply (list_elem_of_lookup_2 _ 40%nat); reflexivity
    | apply (list_elem_of_lookup_2 _ 41%nat); reflexivity
    | apply (list_elem_of_lookup_2 _ 42%nat); reflexivity
    | apply (list_elem_of_lookup_2 _ 43%nat); reflexivity
    | apply (list_elem_of_lookup_2 _ 44%nat); reflexivity
    | apply (list_elem_of_lookup_2 _ 45%nat); reflexivity ].

(** X8. The handoff registers no pattern twice in a table, and on a host
    that has the tables of the transport dissectors with the patterns
    free it completes; it creates no table besides the three of
    [proto_register_its]. (The enumerators are numbered apart; message
    identifiers are 32-bit, extension kinds below [2^16].) *)
Theorem proto_reg_handoff_its_completes
    (msgid_value : its_msgid → Z) (addGrpC : Z)
    (regext_value : regext_type_enum → Z) (host : dissector_tables) :
  Inj (=) (=) msgid_value → (∀ m, 0 <= msgid_value m < 2 ^ 32) →
  Inj (=) (=) regext_value → (∀ t, 0 <= regext_value t < 2 ^ 16) →
  host_accepts_its msgid_value addGrpC regext_value host →
  NoDup (patterns_of
           (proto_reg_handoff_its_calls msgid_value addGrpC regext_value))
  ∧ ∃ tables,
      proto_reg_handoff_its msgid_value addGrpC regext_value
        (proto_register_its host) = Some tables
      ∧ dom tables
        = dom host ∪ {[its_version_subdissector_table;
                        its_msgid_subdissector_table;
                        regionid_subdissector_table]}.
Proof.
  intros Hminj Hmrange Hrinj Hrrange Hhost. split.
  - by apply proto_reg_handoff_its_calls_NoDup.
  - destruct (proto_reg_handoff_its_succeeds msgid_value addGrpC regext_value
                host Hminj Hmrange Hrinj Hrrange Hhost) as [tables Htables].
    exists tables. split; [done|].
    unfold proto_reg_handoff_its in Htables.
    rewrite (dissector_add_all_dom _ _ _ Htables).
    unfold proto_register_its, register_dissector_table.
    rewrite !dom_insert_L. apply set_eq. intros x.
    rewrite !elem_of_union, !elem_of_singleton. tauto.
Qed.

Lemma proto_reg_handoff_its_completes_witness :
  ∃ tables,
    proto_reg_handoff_its Sample.msgid_value Sample.addGrpC Sample.regext_value
      (proto_register_its Sample.host_tables) = Some tables.
Proof.
  destruct (proto_reg_handoff_its_completes Sample.msgid_value Sample.addGrpC
              Sample.regext_value Sample.host_tables msgid_value_inj
              msgid_value_range regext_value_inj regext_value_range
              sample_host_accepts) as (_ & tables & Htables & _).
  exists tables. exact Htables.
Defined.

Lemma msgid_handle_inj : Inj (=) (=) msgid_handle.
Proof. intros m1 m2 H. destruct m1, m2; (reflexivity || discriminate H). Qed.

Lemma regext_handle_inj : Inj (=) (=) regext_handle.
Proof. intros t1 t2 H. destruct t1, t2; (reflexivity || discriminate H). Qed.

(** X9. After startup the message table, the one [its_da] names for
    Decode-As, binds each of the ten message identifiers to a dissector
    and protocol of its own and binds no other value; the version table
    exists but binds nothing. *)
Theorem startup_message_table_content
    (msgid_value : its_msgid → Z) (addGrpC : Z)
    (regext_value : regext_type_enum → Z) (host tables : dissector_tables) :
  proto_reg_handoff_its msgid_value addGrpC regext_value
    (proto_register_its host) = Some tables →
  (∀ m, 0 <= msgid_value m < 2 ^ 32) →
  (∀ m, dissector_get_uint_handle tables (da_table_name its_da)
          (msgid_value m) = Some (msgid_handle m))
  ∧ (∀ k, (∀ m, msgid_value m ≠ k) →
       dissector_get_uint_handle tables (da_table_name its_da) k = None)
  ∧ (∀ m1 m2, msgid_handle m1 = msgid_handle m2 → m1 = m2)
  ∧ tables !! its_version_subdissector_table = Some ∅.
Proof.
  intros Hstart Hrange. split_and!.
  - intros m. rewrite <- (guint32_small (msgid_value m)) by done.
    apply (startup_bound _ _ _ _ _ Hstart). destruct m; find_call.
  - intros k Hk. apply (startup_unbound _ _ _ _ _ Hstart); [by_compute|].
    change (da_table_name its_da) with "its.msg_id".
    rewrite msgid_registered_patterns.
    intros (m & -> & _)%list_elem_of_fmap.
    apply (Hk m). by rewrite guint32_small.
  - apply msgid_handle_inj.
  - unfold proto_reg_handoff_its in Hstart.
    rewrite (dissector_add_all_table_other _ _ _ _ Hstart).
    + by apply proto_register_its_lookup; by_compute.
    + apply Forall_forall. by_compute.
Qed.

Lemma startup_message_table_content_witness :
  dissector_get_uint_handle Sample.tables (da_table_name its_da) 2
  = Some (msgid_handle ITS_CAM)
  ∧ dissector_get_uint_handle Sample.tables (da_table_name its_da) 3 = None.
Proof.
  destruct (startup_message_table_content Sample.msgid_value Sample.addGrpC
              Sample.regext_value Sample.host_tables Sample.tables
              sample_startup msgid_value_range) as (H1 & H2 & _).
  split; [exact (H1 ITS_CAM)|].
  apply H2. intros m. destruct m; discriminate.
Defined.

(** A closed pattern is the [guint32] it converts to. *)
Ltac as_guint32 :=
  match goal with
  | |- dissector_get_uint_handle _ _ ?p = _ => change p with (guint32 p)
  end.

(** X10. After startup the entry point [dissect_its_PDU] is bound, in
    both BTP port tables, to each of the ten ports of the implemented
    services, and in the GeoNetworking tables to the six application
    identifiers and to the DENM and CAM message types. The ports of the
    services listed as not supported (and the allocated one), and
    [AID_GN_MGMT], are as the host had them, and so is every table the
    handoff does not name. *)
Theorem startup_transport_bindings
    (msgid_value : its_msgid → Z) (addGrpC : Z)
    (regext_value : regext_type_enum → Z) (host tables : dissector_tables) :
  proto_reg_handoff_its msgid_value addGrpC regext_value
    (proto_register_its host) = Some tables →
  (∀ sd p, sd ∈ subdissector → p ∈ ports →
     dissector_get_uint_handle tables sd p = Some its_handle)
  ∧ (∀ aid, aid ∈ registered_aids →
       dissector_get_uint_handle tables "geonw.sec.v2.app_id" aid
       = Some its_handle)
  ∧ (∀ m, m ∈ [ITS_DENM; ITS_CAM] →
       dissector_get_uint_handle tables "geonw.sec.v1.msg_type"
         (guint32 (msgid_value m)) = Some its_handle)
  ∧ (∀ sd p, sd ∈ subdissector → p ∈ unregistered_ports →
       dissector_get_uint_handle tables sd p
       = dissector_get_uint_handle host sd p)
  ∧ dissector_get_uint_handle tables "geonw.sec.v2.app_id" AID_GN_MGMT
    = dissector_get_uint_handle host "geonw.sec.v2.app_id" AID_GN_MGMT
  ∧ (∀ name, name ∉ proto_reg_handoff_its_tables →
       name ≠ its_version_subdissector_table →
       tables !! name = host !! name).
Proof.
  intros Hstart. split_and!.
  - intros sd p Hsd Hp. unfold subdissector in Hsd. unfold ports in Hp.
    repeat (apply elem_of_cons in Hsd as [->|Hsd]);
      [..|by apply elem_of_nil in Hsd].
    all: repeat (apply elem_of_cons in Hp as [->|Hp]);
      [..|by apply elem_of_nil in Hp].
    all: as_guint32.
    all: apply (startup_bound _ _ _ _ _ Hstart _ _ its_handle); find_call.
  - intros aid Haid. unfold registered_aids in Haid.
    repeat (apply elem_of_cons in Haid as [->|Haid]);
      [..|by apply elem_of_nil in Haid].
    all: as_guint32.
    all: apply (startup_bound _ _ _ _ _ Hstart _ _ its_handle); find_call.
  - intros m Hm.
    repeat (apply elem_of_cons in Hm as [->|Hm]);
      [..|by apply elem_of_nil in Hm].
    all: apply (startup_bound _ _ _ _ _ Hstart _ _ its_handle); find_call.
  - intros sd p Hsd Hp. unfold subdissector in Hsd.
    unfold unregistered_ports in Hp.
    repeat (apply elem_of_cons in Hsd as [->|Hsd]);
      [..|by apply elem_of_nil in Hsd].
    all: repeat (apply elem_of_cons in Hp as [->|Hp]);
      [..|by apply elem_of_nil in Hp].
    all: apply (startup_frame_host _ _ _ _ _ Hstart); by_compute.
  - apply (startup_frame_host _ _ _ _ _ Hstart); by_compute.
  - intros name Hname Hversion.
    unfold proto_reg_handoff_its in Hstart.
    rewrite (dissector_add_all_table_other _ _ _ _ Hstart).
    + apply proto_register_its_lookup_other.
      unfold proto_reg_handoff_its_tables in Hname.
      rewrite !not_elem_of_cons in Hname. rewrite !not_elem_of_cons.
      unfold its_msgid_subdissector_table, regionid_subdissector_table.
      tauto.
    + intros c Hc <-. apply Hname.
      by apply (proj1 (Forall_forall _ _)
                  (proto_reg_handoff_its_calls_tables msgid_value addGrpC
                     regext_value) c Hc).
Qed.

Lemma startup_transport_bindings_witness :
  dissector_get_uint_handle Sample.tables "btpb.port" ITS_WKP_TLM
  = Some its_handle
  ∧ dissector_get_uint_handle Sample.tables "btpa.port" ITS_WKP_SA = None.
Proof.
  destruct (startup_transport_bindings Sample.msgid_value Sample.addGrpC
              Sample.regext_value Sample.host_tables Sample.tables
              sample_startup) as (H1 & _ & _ & H4 & _).
  split.
  - apply H1; by_compute.
  - rewrite H4; [reflexivity | by_compute | by_compute].
Defined.

(** X11. After startup each of the eight extension kinds, decoded under
    the region [addGrpC], is handed to the dissector registered for it,
    a different one for each kind (the generic lane to the connection
    trajectory dissector, the XY node attribute set to the control
    dissector); an extension kind below [2^16] that is none of the eight
    is shown as raw data under [addGrpC] too. *)
Theorem startup_resolves_every_addGrpC_extension
    (msgid_value : its_msgid → Z) (addGrpC : Z)
    (regext_value : regext_type_enum → Z)
    (call_dissector_work : dissector_handle_t → tvbuff_t → Z)
    (host tables : dissector_tables) (tvb : tvbuff_t) :
  proto_reg_handoff_its msgid_value addGrpC regext_value
    (proto_register_its host) = Some tables →
  0 <= addGrpC < 2 ^ 16 → (∀ t, 0 <= regext_value t < 2 ^ 16) →
  (∀ t c, invoked (log (dissect_regextval_pdu call_dissector_work tables tvb
                          (mk_its_private_data (regext_value t) addGrpC c)))
          = [regext_handle t])
  ∧ (∀ v c, 0 <= v < 2 ^ 16 → (∀ t, regext_value t ≠ v) →
       dissect_regextval_pdu call_dissector_work tables tvb
         (mk_its_private_data v addGrpC c)
       = mk_dissect (tvb_captured_length tvb) [ev_call_data_dissector tvb])
  ∧ (∀ t1 t2, regext_handle t1 = regext_handle t2 → t1 = t2).
Proof.
  intros Hstart Hregion Hrange. split_and!.
  - intros t c. rewrite dissect_regextval_pdu_cases, regextval_key_eq. simpl.
    rewrite (startup_bound _ _ _ _ _ Hstart regionid_subdissector_table _
               (regext_handle t)) by (destruct t; find_call).
    simpl. by destruct (call_dissector_work _ tvb =? 0).
  - intros v c Hv Hnone. rewrite dissect_regextval_pdu_cases.
    rewrite (startup_unbound _ _ _ _ _ Hstart); [done | by_compute |].
    rewrite regionid_registered_patterns.
    intros (t & Heq & _)%list_elem_of_fmap.
    assert (Hkey : guint32 (Z.shiftl addGrpC 16 + regext_value t)
                   = regextval_key
                       (mk_its_private_data (regext_value t) addGrpC c))
      by (by rewrite regextval_key_eq).
    rewrite Hkey in Heq.
    apply regextval_key_inj in Heq as [_ Ht]; simpl in *; auto.
    by apply (Hnone t).
  - apply regext_handle_inj.
Qed.

Lemma startup_resolves_every_addGrpC_extension_witness :
  invoked (log (dissect_regextval_pdu Sample.call_dissector_work Sample.tables
                  Sample.regext_tvb (mk_its_private_data 3 0 0)))
  = [regext_handle Reg_GenericLane]
  ∧ dissect_regextval_pdu Sample.call_dissector_work Sample.tables
      Sample.regext_tvb (mk_its_private_data 4 0 0)
    = mk_dissect 3 [ev_call_data_dissector Sample.regext_tvb].
Proof.
  assert (H0 : 0 <= Sample.addGrpC < 2 ^ 16) by (unfold Sample.addGrpC; lia).
  destruct (startup_resolves_every_addGrpC_extension
              Sample.msgid_value Sample.addGrpC Sample.regext_value
              Sample.call_dissector_work Sample.host_tables Sample.tables
              Sample.regext_tvb sample_startup H0 regext_value_range)
    as (H1 & H2 & _).
  split; [exact (H1 Reg_GenericLane 0)|].
  apply (H2 4 0); [lia|]. intros t. destruct t; discriminate.
Defined.

(** ** The Decode-As prompt *)

Import DecodeAs.

Lemma string_length_app (a b : string) :
  String.length (a +:+ b) = (String.length a + String.length b)%nat.
Proof. induction a as [|c a IH]; simpl; [done | by rewrite IH]. Qed.

Lemma substring_whole (s : string) (n : nat) :
  (String.length s ≤ n)%nat → String.substring 0 n s = s.
Proof.
  revert n. induction s as [|c s IH]; intros [|n] Hlen; simpl in *;
    [done | done | lia | f_equal; apply IH; lia].
Qed.

Lemma string_app_inj_r (a b s : string) : a +:+ s = b +:+ s → a = b.
Proof.
  revert b. induction a as [|c a IH]; intros [|c' b] Heq.
  - done.
  - apply (f_equal String.length) in Heq.
    rewrite !string_length_app in Heq. simpl in Heq. exfalso. lia.
  - apply (f_equal String.length) in Heq.
    rewrite !string_length_app in Heq. simpl in Heq. exfalso. lia.
  - injection Heq as -> Heq. f_equal. by apply IH.
Qed.

Lemma pretty_N_go_length (k : nat) (x : N) (s : string) :
  (x < 10 ^ N.of_nat k)%N →
  (String.length (pretty_N_go x s) ≤ String.length s + k)%nat.
Proof.
  revert x s. induction k as [|k IH]; intros x s Hx.
  - assert (x = 0%N) as -> by (simpl in Hx; lia).
    rewrite pretty_N_go_0. lia.
  - destruct (decide (x = 0%N)) as [->|Hpos].
    + rewrite pretty_N_go_0. lia.
    + rewrite pretty_N_go_step by lia.
      etrans; [apply IH|simpl; lia].
      apply N.Div0.div_lt_upper_bound.
      rewrite Nat2N.inj_succ, N.pow_succ_r' in Hx. lia.
Qed.

(** A 32-bit value is written with at most ten digits. *)
Lemma pretty_guint32_length (z : Z) :
  (String.length (pretty (guint32 z)) ≤ 10)%nat.
Proof.
  pose proof (guint32_range z) as Hrange.
  destruct (guint32 z) as [|p|p] eqn:Hz; [simpl; lia | | lia].
  unfold pretty, pretty_Z, pretty, pretty_positive, pretty, pretty_N.
  rewrite decide_False by done.
  etrans; [apply (pretty_N_go_length 10)|simpl; lia].
  change (10 ^ N.of_nat 10)%N with 10000000000%N. lia.
Qed.

(** X12. When the prompt buffer holds the arrow and 19 more bytes, the
    Decode-As prompt is never cut: it is "MsgId (", the arrow, the
    decimal digits of the value [its_msgid_value] returns (taken as a
    32-bit unsigned integer) and ")". Two packets then get the same
    prompt exactly when they carry the same message identifier. *)
Theorem its_msgid_prompt_names_the_selector
    (packet_info : Type) (curr_layer_num : packet_info → Z)
    (p_get_proto_data : packet_info → Z → Z)
    (UTF8_RIGHTWARDS_ARROW : string) (MAX_DECODE_AS_PROMPT_LEN : nat)
    (pinfo1 pinfo2 : packet_info) :
  (String.length UTF8_RIGHTWARDS_ARROW + 18 < MAX_DECODE_AS_PROMPT_LEN)%nat →
  let prompt := its_msgid_prompt packet_info curr_layer_num p_get_proto_data
                  UTF8_RIGHTWARDS_ARROW MAX_DECODE_AS_PROMPT_LEN in
  let selector := its_msgid_value packet_info curr_layer_num p_get_proto_data in
  prompt pinfo1
  = "MsgId (" +:+ UTF8_RIGHTWARDS_ARROW
    +:+ pretty (guint32 (selector pinfo1)) +:+ ")"
  ∧ (prompt pinfo1 = prompt pinfo2 ↔
     guint32 (selector pinfo1) = guint32 (selector pinfo2)).
Proof.
  intros Hmax prompt selector.
  assert (Hfull : ∀ pinfo,
            prompt pinfo
            = "MsgId (" +:+ UTF8_RIGHTWARDS_ARROW
              +:+ pretty (guint32 (selector pinfo)) +:+ ")").
  { intros pinfo. unfold prompt, its_msgid_prompt, g_snprintf.
    apply substring_whole. rewrite !string_length_app. simpl.
    pose proof (pretty_guint32_length (selector pinfo)) as Hlen.
    unfold selector, its_msgid_value, GPOINTER_TO_UINT in *. lia. }
  split; [apply Hfull|]. rewrite !Hfull. split.
  - intros Heq. apply (inj (String.app _)) in Heq.
    apply (inj (String.app _)) in Heq.
    apply string_app_inj_r in Heq. by apply (inj pretty) in Heq.
  - by intros ->.
Qed.

Lemma its_msgid_prompt_names_the_selector_witness :
  its_msgid_prompt Z (λ _, 1) sample_proto_data sample_arrow 200 7
  = "MsgId (" +:+ sample_arrow +:+ "7)"
  ∧ (its_msgid_prompt Z (λ _, 1) sample_proto_data sample_arrow 200 7
     = its_msgid_prompt Z (λ _, 1) sample_proto_data sample_arrow 200
         (7 + 2 ^ 32) ↔
     guint32 (its_msgid_value Z (λ _, 1) sample_proto_data 7)
     = guint32 (its_msgid_value Z (λ _, 1) sample_proto_data (7 + 2 ^ 32))).
Proof.
  apply (its_msgid_prompt_names_the_selector Z (λ _, 1) sample_proto_data
           sample_arrow 200 7 (7 + 2 ^ 32)).
  simpl. lia.
Defined.

(** A prompt buffer too short for the text: the text is cut. *)
Example its_msgid_prompt_cut :
  its_msgid_prompt Z (λ _, 1) sample_proto_data sample_arrow 12 4294967295
  = "MsgId (" +:+ sample_arrow +:+ "4".
Proof. reflexivity. Qed.

(** ** Registrations made later, and the protocols of the handles *)

(** X13. A registration made later changes what the resolver does for
    the key it binds, and for nothing else: once a handler is registered
    in the regional-extension table, the payloads with that key are
    handed to it, and every other payload is resolved as before; a
    registration in another table never changes the resolver. *)
Theorem later_registration_is_resolved
    (call_dissector_work : dissector_handle_t → tvbuff_t → Z)
    (tables tables' : dissector_tables) (name : string) (pattern : Z)
    (handle : dissector_handle_t) (tvb : tvbuff_t) :
  dissector_add_uint name pattern handle tables = Some tables' →
  (∀ re, name = regionid_subdissector_table →
         regextval_key re = guint32 pattern →
         invoked (log (dissect_regextval_pdu call_dissector_work tables' tvb re))
         = [handle])
  ∧ (∀ re, (name, guint32 pattern)
           ≠ (regionid_subdissector_table, regextval_key re) →
         dissect_regextval_pdu call_dissector_work tables' tvb re
         = dissect_regextval_pdu call_dissector_work tables tvb re).
Proof.
  intros Hadd. split.
  - intros re -> Hkey. rewrite dissect_regextval_pdu_cases, Hkey.
    rewrite (dissector_add_uint_bound _ _ _ _ _ Hadd). simpl.
    by destruct (call_dissector_work handle tvb =? 0).
  - intros re Hne. rewrite !dissect_regextval_pdu_cases.
    rewrite (dissector_add_uint_other _ _ _ _ _ _ _ Hadd); [done|].
    congruence.
Qed.

Lemma sample_later_registration :
  is_Some (dissector_add_uint regionid_subdissector_table (Z.shiftl 1 16 + 5)
             its_handle Sample.tables).
Proof. by_compute. Qed.

Lemma later_registration_is_resolved_witness :
  ∃ tables',
    dissector_add_uint regionid_subdissector_table (Z.shiftl 1 16 + 5)
      its_handle Sample.tables = Some tables'
    ∧ invoked (log (dissect_regextval_pdu Sample.call_dissector_work tables'
                      Sample.regext_tvb (mk_its_private_data 5 1 0)))
      = [its_handle].
Proof.
  destruct sample_later_registration as [tables' Hadd].
  exists tables'. split; [exact Hadd|].
  apply (later_registration_is_resolved Sample.call_dissector_work
           Sample.tables tables' _ _ _ Sample.regext_tvb Hadd);
    reflexivity.
Defined.

Import Protocols.

(** X14. Whatever the numbering, every handle the handoff registers is
    created for a protocol that [proto_register_its] registers, and
    every protocol it registers is that of some handle; the protocols
    registered in name only all hang under [proto_its]; names, short
    names and filter names are each pairwise distinct. *)
Theorem handoff_handles_use_registered_protocols
    (msgid_value : its_msgid → Z) (addGrpC : Z)
    (regext_value : regext_type_enum → Z) :
  (∀ c, c ∈ proto_reg_handoff_its_calls msgid_value addGrpC regext_value →
        proto c.2 ∈ p_var <$> proto_register_its_protocols)
  ∧ (∀ r, r ∈ proto_register_its_protocols →
          ∃ c, c ∈ proto_reg_handoff_its_calls msgid_value addGrpC regext_value
               ∧ proto c.2 = p_var r)
  ∧ (∀ r, r ∈ proto_register_its_protocols →
          p_parent r = (if decide (p_var r = proto_its) then None
                        else Some proto_its))
  ∧ NoDup (p_var <$> proto_register_its_protocols)
  ∧ NoDup (p_name <$> proto_register_its_protocols)
  ∧ NoDup (p_short_name <$> proto_register_its_protocols)
  ∧ NoDup (p_filter_name <$> proto_register_its_protocols).
Proof.
  split_and!.
  - apply Forall_forall. by_compute.
  - intros r Hr. apply Exists_exists. revert r Hr. apply Forall_forall.
    by_compute.
  - apply Forall_forall. by_compute.
  - by_compute.
  - by_compute.
  - by_compute.
  - by_compute.
Qed.
